(** * Brand-themeable login page: config.js and script.js

    A shallow embedding of the two scripts of the page and the properties
    of their specification.

    - [JS]       the fragment of JavaScript the scripts rely on: strings as
                 UTF-16 code units, integral Numbers, [parseInt],
                 [Number.prototype.toString(16)], truthiness;
    - [Regex]    the regular expressions of [FormValidator];
    - [Dom]      the document as the scripts observe it;
    - [Page]     the state shared by the scripts, returning and throwing;
    - [Config]   config.js: the brand registry and its lookup through
                 [Object.prototype], [setBrand], rendering, [darkenColor];
    - [Script]   script.js: [FormValidator], [AccessibilityUtils],
                 [ModalManager], [FormHandler];
    - [Spec]     the vocabulary in which the properties are stated;
    - [Examples] a sample page to run the functions on.

    Definitions come first, the properties follow. *)

From Stdlib Require Import ZArith NArith Lia Bool Ascii String List.
From Stdlib Require Import Floats.SpecFloat.
From stdpp Require Import base option list gmap strings.

Local Open Scope Z_scope.

(* ================================================================== *)
(** * The JavaScript fragment *)
(* ================================================================== *)

Module JS.

(** ** Strings

    A JavaScript string is a sequence of UTF-16 code units; [length] is
    its [.length].  String literals of the scripts are ASCII and are
    written [utf16 "..."]. *)

Definition jsstring := list N.

Definition code (a : ascii) : N := N_of_ascii a.

Definition utf16 (s : string) : jsstring := map code (list_ascii_of_string s).

(** WhiteSpace and LineTerminator code points: the set matched by [\s]
    in a regular expression and removed by [String.prototype.trim]. *)
Definition isWhiteSpace (c : N) : bool :=
  ((9 <=? c) && (c <=? 13) || (c =? 32) || (c =? 160) || (c =? 5760)
   || (8192 <=? c) && (c <=? 8202) || (c =? 8232) || (c =? 8233)
   || (c =? 8239) || (c =? 8287) || (c =? 12288) || (c =? 65279))%N.

Fixpoint dropWhile (p : N -> bool) (s : jsstring) : jsstring :=
  match s with
  | [] => []
  | c :: t => if p c then dropWhile p t else s
  end.

Fixpoint takeWhile (p : N -> bool) (s : jsstring) : jsstring :=
  match s with
  | [] => []
  | c :: t => if p c then c :: takeWhile p t else []
  end.

Definition trimStart (s : jsstring) : jsstring := dropWhile isWhiteSpace s.
Definition trimEnd (s : jsstring) : jsstring := rev (dropWhile isWhiteSpace (rev s)).

(** [s.trim()] *)
Definition trim (s : jsstring) : jsstring := trimEnd (trimStart s).

(** [s.replace(c, "")] with a one-character string pattern: only the
    first occurrence is removed. *)
Fixpoint removeFirst (c : N) (s : jsstring) : jsstring :=
  match s with
  | [] => []
  | d :: t => if (d =? c)%N then t else d :: removeFirst c t
  end.

(** [s.slice(1)] *)
Definition slice1 (s : jsstring) : jsstring := tail s.

(** ** Numbers

    Every Number the scripts compute with is integral, infinite or NaN,
    except the product [2.55 * percent] in [darkenColor], which is kept as
    a binary64 value ([spec_float] at precision 53).  [Int z] stands for
    the double whose value is the integer [z]; arithmetic on [Int]s rounds
    the exact result to the nearest double ([Number_of_Z]), as IEEE 754
    prescribes. *)

Definition prec : Z := 53.
Definition emax : Z := 1024.

Inductive number :=
  | NaN
  | Infinity (negative : bool)
  | Int (z : Z).

(** [Math.round]: the integer closest to [x], ties towards +Infinity,
    that is [floor (x + 1/2)] computed exactly. *)
Definition Math_round (x : spec_float) : number :=
  match x with
  | S754_zero _ => Int 0
  | S754_infinity s => Infinity s
  | S754_nan => NaN
  | S754_finite s m e =>
      let v := if s then Z.neg m else Z.pos m in
      if 0 <=? e then Int (v * 2 ^ e)
      else Int ((2 * v + 2 ^ (- e)) / 2 ^ (- e + 1))
  end.

(** The double nearest to an integer (ties to even).  Integers below
    2^53 in magnitude are doubles already. *)
Definition Number_of_Z (z : Z) : number :=
  if Z.abs z <? 2 ^ 53 then Int z
  else Math_round (binary_normalize prec emax z 0 false).

(** The binary64 value of an integer, for passing one where the model
    keeps a [spec_float]. *)
Definition double_of_Z (z : Z) : spec_float := binary_normalize prec emax z 0 false.

Definition add (a b : number) : number :=
  match a, b with
  | NaN, _ | _, NaN => NaN
  | Infinity s, Infinity t => if eqb s t then Infinity s else NaN
  | Infinity s, Int _ => Infinity s
  | Int _, Infinity t => Infinity t
  | Int x, Int y => Number_of_Z (x + y)
  end.

Definition sub (a b : number) : number :=
  match a, b with
  | NaN, _ | _, NaN => NaN
  | Infinity s, Infinity t => if eqb s t then NaN else Infinity s
  | Infinity s, Int _ => Infinity s
  | Int _, Infinity t => Infinity (negb t)
  | Int x, Int y => Number_of_Z (x - y)
  end.

Definition mul (a b : number) : number :=
  match a, b with
  | NaN, _ | _, NaN => NaN
  | Infinity s, Infinity t => Infinity (xorb s t)
  | Infinity s, Int y => if y =? 0 then NaN else Infinity (xorb s (y <? 0))
  | Int x, Infinity t => if x =? 0 then NaN else Infinity (xorb (x <? 0) t)
  | Int x, Int y => Number_of_Z (x * y)
  end.

(** [a < b]; false as soon as an operand is NaN. *)
Definition lt (a b : number) : bool :=
  match a, b with
  | NaN, _ | _, NaN => false
  | Infinity s, Infinity t => s && negb t
  | Infinity s, Int _ => s
  | Int _, Infinity t => negb t
  | Int x, Int y => x <? y
  end.

(** ToInt32: NaN and the infinities give 0, an integer wraps modulo 2^32
    into [-2^31, 2^31). *)
Definition ToInt32 (x : number) : Z :=
  match x with
  | Int z => (z + 2 ^ 31) mod 2 ^ 32 - 2 ^ 31
  | _ => 0
  end.

(** [x >> k] and [x & y] on int32 operands. *)
Definition sar (x : number) (k : Z) : Z := Z.shiftr (ToInt32 x) (k mod 32).
Definition band (x y : Z) : Z := Z.land x y.

(** Value of a hexadecimal digit, either case. *)
Definition hexValue (c : N) : option Z :=
  if ((48 <=? c) && (c <=? 57))%N then Some (Z.of_N c - 48)
  else if ((97 <=? c) && (c <=? 102))%N then Some (Z.of_N c - 87)
  else if ((65 <=? c) && (c <=? 70))%N then Some (Z.of_N c - 55)
  else None.

Definition isHexDigit (c : N) : bool :=
  match hexValue c with Some _ => true | None => false end.

Definition hexValue0 (c : N) : Z :=
  match hexValue c with Some v => v | None => 0 end.

(** [parseInt(s, 16)]: leading white space, an optional sign, an optional
    [0x]/[0X] prefix, then the longest run of hexadecimal digits; NaN when
    that run is empty. *)
Definition parseInt16 (s : jsstring) : number :=
  let s1 := trimStart s in
  let '(negative, s2) :=
    match s1 with
    | c :: t => if (c =? code "-")%N then (true, t)
                else if (c =? code "+")%N then (false, t)
                else (false, s1)
    | [] => (false, s1)
    end in
  let s3 :=
    match s2 with
    | c0 :: c1 :: t =>
        if ((c0 =? code "0") && ((c1 =? code "x") || (c1 =? code "X")))%N then t else s2
    | _ => s2
    end in
  match takeWhile isHexDigit s3 with
  | [] => NaN
  | ds =>
      let n := fold_left (fun acc d => acc * 16 + hexValue0 d) ds 0 in
      Number_of_Z (if negative then - n else n)
  end.

(** Lower-case hexadecimal digit of [0 <= d < 16]. *)
Definition hexDigit (d : Z) : N :=
  if d <? 10 then Z.to_N (48 + d) else Z.to_N (87 + d).

Fixpoint toHex (fuel : nat) (n : Z) : jsstring :=
  match fuel with
  | O => []
  | S k => if n <? 16 then [hexDigit n]
           else toHex k (n / 16) ++ [hexDigit (n mod 16)]
  end.

(** [x.toString(16)] *)
Definition toString16 (x : number) : jsstring :=
  match x with
  | NaN => utf16 "NaN"
  | Infinity s => (if s then utf16 "-" else []) ++ utf16 "Infinity"
  | Int z =>
      let digits := toHex (S (Z.to_nat (Z.log2 (Z.abs z)))) (Z.abs z) in
      if z <? 0 then code "-" :: digits else digits
  end.

(** ** Values and truthiness

    The validators return what [a && b] returns: the left operand when it
    is falsy, the right one otherwise.  Their arguments are strings, so
    the values met are strings and booleans. *)

Inductive value :=
  | VString (s : jsstring)
  | VBool (b : bool).

Definition truthy (v : value) : bool :=
  match v with
  | VString s => match s with [] => false | _ => true end
  | VBool b => b
  end.

(** [a && b] *)
Definition and_ (a b : value) : value := if truthy a then b else a.

(** [a || b] *)
Definition or_ (a b : value) : value := if truthy a then a else b.

(** [!a] *)
Definition not_ (a : value) : bool := negb (truthy a).

End JS.

(* ================================================================== *)
(** * Regular expressions of FormValidator *)
(* ================================================================== *)

Module Regex.
Import JS.

(** Members of a character class. *)
Inductive atom :=
  | Chr (c : N)            (* a literal or escaped character *)
  | Range (lo hi : N)      (* lo-hi *)
  | Space                  (* \s *)
  | Digit.                 (* \d *)

Inductive class :=
  | OneOf (l : list atom)      (* [...]  *)
  | NoneOf (l : list atom).    (* [^...] *)

Definition inAtom (a : atom) (c : N) : bool :=
  match a with
  | Chr d => (c =? d)%N
  | Range lo hi => ((lo <=? c) && (c <=? hi))%N
  | Space => isWhiteSpace c
  | Digit => ((48 <=? c) && (c <=? 57))%N
  end.

Definition inClass (k : class) (c : N) : bool :=
  match k with
  | OneOf l => existsb (fun a => inAtom a c) l
  | NoneOf l => negb (existsb (fun a => inAtom a c) l)
  end.

Inductive re :=
  | Void
  | Eps
  | Cls (k : class)
  | Cat (r1 r2 : re)
  | Alt (r1 r2 : re)
  | Star (r : re).

(** A literal character. *)
Definition Lit (c : N) : re := Cls (OneOf [Chr c]).

(** Quantifiers [r+], [r?] and [r{0,n}]. *)
Definition Plus (r : re) : re := Cat r (Star r).
Definition Opt (r : re) : re := Alt r Eps.
Fixpoint UpTo (n : nat) (r : re) : re :=
  match n with
  | O => Eps
  | S k => Opt (Cat r (UpTo k r))
  end.

Fixpoint nullable (r : re) : bool :=
  match r with
  | Void => false
  | Eps => true
  | Cls _ => false
  | Cat r1 r2 => nullable r1 && nullable r2
  | Alt r1 r2 => nullable r1 || nullable r2
  | Star _ => true
  end.

Fixpoint deriv (c : N) (r : re) : re :=
  match r with
  | Void => Void
  | Eps => Void
  | Cls k => if inClass k c then Eps else Void
  | Cat r1 r2 =>
      if nullable r1 then Alt (Cat (deriv c r1) r2) (deriv c r2)
      else Cat (deriv c r1) r2
  | Alt r1 r2 => Alt (deriv c r1) (deriv c r2)
  | Star r1 => Cat (deriv c r1) (Star r1)
  end.

Fixpoint matches (r : re) (s : jsstring) : bool :=
  match s with
  | [] => nullable r
  | c :: t => matches (deriv c r) t
  end.

(** [/^r$/.test(s)]: with both anchors and no flag, the whole of [s] has
    to match [r]. *)
Definition test (r : re) (s : jsstring) : bool := matches r s.

(** [s.replace(/[k]/g, '')]: every code unit of the class is removed. *)
Definition removeAll (k : class) (s : jsstring) : jsstring :=
  List.filter (fun c => negb (inClass k c)) s.

(** The words of a regular expression. *)
Inductive lang : re -> jsstring -> Prop :=
  | lang_eps : lang Eps []
  | lang_cls k c : inClass k c = true -> lang (Cls k) [c]
  | lang_cat r1 r2 s1 s2 : lang r1 s1 -> lang r2 s2 -> lang (Cat r1 r2) (s1 ++ s2)
  | lang_alt_l r1 r2 s : lang r1 s -> lang (Alt r1 r2) s
  | lang_alt_r r1 r2 s : lang r2 s -> lang (Alt r1 r2) s
  | lang_star_nil r : lang (Star r) []
  | lang_star_cons r s1 s2 : lang r s1 -> lang (Star r) s2 -> lang (Star r) (s1 ++ s2).

End Regex.

(* ================================================================== *)
(** * The document *)
(* ================================================================== *)

(** The document is a store of elements; a handle is an index into it.
    The store lists the elements in document order; elements created by
    the scripts are added at its end.  An element records what the scripts
    read or write: tag, id, class list, attributes (reflected properties
    such as [src], [alt] or [content] included), the text directly inside
    it, its parent and whether it is still part of the document. *)

Module Dom.
Import JS.

Record Element := mkElement {
  tagName : string;
  id : string;                        (* the empty string when absent *)
  classList : list string;
  attributes : gmap string string;
  textContent : string;
  parentNode : option nat;
  isConnected : bool;
}.

Inductive Listener :=
  | KeydownTrap (target : nat) (first last : option nat).

Inductive Timer :=
  | RemoveChildAfter (ms : nat) (parent child : nat).

Record Document := mkDocument {
  nodes : list Element;
  head : nat;
  body : nat;
  activeElement : option nat;
  title : string;
  rootStyle : gmap string jsstring;   (* documentElement.style custom properties *)
  bodyOverflow : string;              (* body.style.overflow *)
  listeners : list Listener;
  timers : list Timer;
}.

Definition withNodes (d : Document) (ns : list Element) : Document :=
  mkDocument ns (head d) (body d) (activeElement d) (title d) (rootStyle d)
             (bodyOverflow d) (listeners d) (timers d).

Definition withActive (d : Document) (a : option nat) : Document :=
  mkDocument (nodes d) (head d) (body d) a (title d) (rootStyle d)
             (bodyOverflow d) (listeners d) (timers d).

Definition withTitle (d : Document) (t : string) : Document :=
  mkDocument (nodes d) (head d) (body d) (activeElement d) t (rootStyle d)
             (bodyOverflow d) (listeners d) (timers d).

Definition withRootStyle (d : Document) (s : gmap string jsstring) : Document :=
  mkDocument (nodes d) (head d) (body d) (activeElement d) (title d) s
             (bodyOverflow d) (listeners d) (timers d).

Definition withBodyOverflow (d : Document) (o : string) : Document :=
  mkDocument (nodes d) (head d) (body d) (activeElement d) (title d) (rootStyle d)
             o (listeners d) (timers d).

Definition withListeners (d : Document) (l : list Listener) : Document :=
  mkDocument (nodes d) (head d) (body d) (activeElement d) (title d) (rootStyle d)
             (bodyOverflow d) l (timers d).

Definition withTimers (d : Document) (t : list Timer) : Document :=
  mkDocument (nodes d) (head d) (body d) (activeElement d) (title d) (rootStyle d)
             (bodyOverflow d) (listeners d) t.

(** *** Element updates *)

Definition setClassList (l : list string) (e : Element) : Element :=
  mkElement (tagName e) (id e) l (attributes e) (textContent e) (parentNode e) (isConnected e).

Definition setAttr (a v : string) (e : Element) : Element :=
  mkElement (tagName e) (id e) (classList e) (<[a := v]> (attributes e))
            (textContent e) (parentNode e) (isConnected e).

Definition setText (t : string) (e : Element) : Element :=
  mkElement (tagName e) (id e) (classList e) (attributes e) t (parentNode e) (isConnected e).

Definition setParent (p : option nat) (c : bool) (e : Element) : Element :=
  mkElement (tagName e) (id e) (classList e) (attributes e) (textContent e) p c.

Definition hasClass (c : string) (e : Element) : bool :=
  existsb (String.eqb c) (classList e).

(** [classList.add(c)] and [classList.remove(c)] *)
Definition classAdd (c : string) (e : Element) : Element :=
  if hasClass c e then e else setClassList (classList e ++ [c]) e.

Definition classRemove (c : string) (e : Element) : Element :=
  setClassList (List.filter (fun x => negb (String.eqb c x)) (classList e)) e.

(** *** Tree structure *)

(** The handles met when following [parentNode] upwards from [h]. *)
Fixpoint ancestors (ns : list Element) (fuel : nat) (h : nat) : list nat :=
  match fuel with
  | O => []
  | S k =>
      match ns !! h with
      | Some e =>
          match parentNode e with
          | Some p => p :: ancestors ns k p
          | None => []
          end
      | None => []
      end
  end.

Definition isDescendant (ns : list Element) (anc h : nat) : bool :=
  existsb (Nat.eqb anc) (ancestors ns (length ns) h).

(** Removing the children of [h]: every descendant leaves the document. *)
Definition detachDescendants (ns : list Element) (h : nat) : list Element :=
  imap (fun k e => if isDescendant ns h k then setParent None false e else e) ns.

(** *** Selectors *)

Inductive simple :=
  | Tag (t : string)                (* t *)
  | Class (c : string)              (* .c *)
  | HasAttr (a : string)            (* [a] *)
  | TagAttr (t a v : string)        (* t[a="v"] *)
  | TabIndexed.                     (* [tabindex]:not([tabindex="-1"]) *)

Inductive selector :=
  | Any (alternatives : list simple)      (* s1, s2, ... *)
  | Inside (anc : simple) (s : simple).   (* anc s *)

Definition attrIs (a v : string) (e : Element) : bool :=
  match attributes e !! a with
  | Some w => String.eqb v w
  | None => false
  end.

Definition hasAttr (a : string) (e : Element) : bool :=
  match attributes e !! a with Some _ => true | None => false end.

Definition matchesSimple (s : simple) (e : Element) : bool :=
  match s with
  | Tag t => String.eqb t (tagName e)
  | Class c => hasClass c e
  | HasAttr a => hasAttr a e
  | TagAttr t a v => String.eqb t (tagName e) && attrIs a v e
  | TabIndexed => hasAttr "tabindex" e && negb (attrIs "tabindex" "-1" e)
  end.

Definition matchesSelector (ns : list Element) (sel : selector) (h : nat) (e : Element) : bool :=
  match sel with
  | Any alts => existsb (fun s => matchesSimple s e) alts
  | Inside anc s =>
      matchesSimple s e &&
      existsb (fun a => match ns !! a with
                        | Some ea => matchesSimple anc ea
                        | None => false
                        end) (ancestors ns (length ns) h)
  end.

(** Handles of the elements satisfying [p], in store order. *)
Fixpoint findAll (p : nat -> Element -> bool) (ns : list Element) (k : nat) : list nat :=
  match ns with
  | [] => []
  | e :: t => if p k e then k :: findAll p t (S k) else findAll p t (S k)
  end.

(** [document.getElementById(i)] *)
Definition getElementById (d : Document) (i : string) : option nat :=
  if String.eqb i "" then None
  else List.head (findAll (fun _ e => isConnected e && String.eqb i (id e)) (nodes d) 0).

(** [document.querySelectorAll(sel)] and [document.querySelector(sel)] *)
Definition querySelectorAll (d : Document) (sel : selector) : list nat :=
  findAll (fun k e => isConnected e && matchesSelector (nodes d) sel k e) (nodes d) 0.

Definition querySelector (d : Document) (sel : selector) : option nat :=
  List.head (querySelectorAll d sel).

(** [el.querySelectorAll(sel)] and [el.querySelector(sel)]: the matching
    descendants of [el]. *)
Definition querySelectorAllIn (d : Document) (el : nat) (sel : selector) : list nat :=
  findAll (fun k e => isDescendant (nodes d) el k && matchesSelector (nodes d) sel k e)
          (nodes d) 0.

Definition querySelectorIn (d : Document) (el : nat) (sel : selector) : option nat :=
  List.head (querySelectorAllIn d el sel).

(** *** Mutations *)

Definition updateNode (h : nat) (f : Element -> Element) (d : Document) : Document :=
  withNodes d (alter f h (nodes d)).

(** [el.textContent = t]: the children of [el] are replaced by the text.
    When the focused element is removed, focus falls back to the body. *)
Definition setTextContent (h : nat) (t : string) (d : Document) : Document :=
  let ns := nodes d in
  let a := match activeElement d with
           | Some f => if isDescendant ns h f then Some (body d) else Some f
           | None => None
           end in
  withActive (withNodes d (alter (setText t) h (detachDescendants ns h))) a.

(** [el.textContent] *)
Definition getTextContent (d : Document) (h : nat) : string :=
  match nodes d !! h with
  | Some e => textContent e
  | None => ""
  end.

(** [document.createElement(tag)]: a fresh element, not yet in the
    document; its handle is returned. *)
Definition createElement (tag : string) (d : Document) : nat * Document :=
  (length (nodes d),
   withNodes d (nodes d ++ [mkElement tag "" [] ∅ "" None false])).

(** [parent.appendChild(child)] for a freshly created [child]. *)
Definition appendChild (parent child : nat) (d : Document) : Document :=
  let c := match nodes d !! parent with
           | Some p => isConnected p
           | None => false
           end in
  updateNode child (setParent (Some parent) c) d.

(** [el.focus()]: an element that left the document cannot take focus. *)
Definition focus (h : nat) (d : Document) : Document :=
  match nodes d !! h with
  | Some e => if isConnected e then withActive d (Some h) else d
  | None => d
  end.

End Dom.

(* ================================================================== *)
(** * Page-wide state and effects *)
(* ================================================================== *)

(** The two scripts share the page: the [currentBrand] variable of
    config.js, the [AppState] object of script.js, the document and the
    console.  A script function is a state transformer that either returns
    or throws; the state reached when it throws is kept. *)

Module Page.

Record AppState := mkAppState {
  isContactModalOpen : bool;
  isThankYouModalOpen : bool;
  currentFocusedElement : option nat;     (* null or an element *)
}.

Inductive level := LogLevel | WarnLevel.

Record World := mkWorld {
  currentBrand : string;
  appState : AppState;
  document : Dom.Document;
  console : list (level * string);
}.

Inductive exn :=
  | TypeError (msg : string).

Inductive outcome (A : Type) :=
  | Return (a : A)
  | Throw (e : exn).
Arguments Return {A} a.
Arguments Throw {A} e.

Definition M (A : Type) : Type := World -> outcome A * World.

Definition ret {A} (a : A) : M A := fun w => (Return a, w).

Definition throw {A} (e : exn) : M A := fun w => (Throw e, w).

Definition bind {A B} (c : M A) (k : A -> M B) : M B :=
  fun w =>
    match c w with
    | (Return a, w') => k a w'
    | (Throw e, w') => (Throw e, w')
    end.

Notation "'do' x <- c ; k" := (bind c (fun x => k))
  (at level 10, x name, c at level 100, k at level 200).
Notation "'run' c ; k" := (bind c (fun _ => k))
  (at level 10, c at level 100, k at level 200).

(** Reading and updating the parts of the state. *)
Definition gets {A} (f : World -> A) : M A := fun w => (Return (f w), w).

Definition onDocument (f : Dom.Document -> Dom.Document) : M unit :=
  fun w => (Return tt, mkWorld (currentBrand w) (appState w) (f (document w)) (console w)).

Definition setCurrentBrand (b : string) : M unit :=
  fun w => (Return tt, mkWorld b (appState w) (document w) (console w)).

Definition onAppState (f : AppState -> AppState) : M unit :=
  fun w => (Return tt, mkWorld (currentBrand w) (f (appState w)) (document w) (console w)).

Definition console_emit (l : level) (msg : string) : M unit :=
  fun w => (Return tt, mkWorld (currentBrand w) (appState w) (document w)
                               (console w ++ [(l, msg)])).

(** [document.createElement(tag)] *)
Definition createElement (tag : string) : M nat :=
  fun w =>
    let '(h, d) := Dom.createElement tag (document w) in
    (Return h, mkWorld (currentBrand w) (appState w) d (console w)).

(** [c] leaves the observation [f] of the state unchanged, whether it
    returns or throws. *)
Definition preserves {X A} (f : World -> X) (c : M A) : Prop :=
  forall w, f (snd (c w)) = f w.

(** [if (c) body] for a statement. *)
Definition when (c : bool) (body : M unit) : M unit :=
  if c then body else ret tt.

(** [const el = lookup; if (el) body(el)] *)
Definition whenSome {A} (o : option A) (body : A -> M unit) : M unit :=
  match o with
  | Some a => body a
  | None => ret tt
  end.

(** [xs.forEach(body)] *)
Fixpoint forEach {A} (xs : list A) (body : A -> M unit) : M unit :=
  match xs with
  | [] => ret tt
  | x :: t => run body x; forEach t body
  end.

End Page.

(* ================================================================== *)
(** * config.js *)
(* ================================================================== *)

Module Config.
Import JS Page.

Record ReasonOption := mkReasonOption {
  value : string;
  text : string;
}.

Record LabelSet := mkLabelSet {
  loginLabel : string;
  loginPagePara : string;
  createAccountLabel : string;
  buttonLabelNext : string;
  needHelpLabel : string;
  keepMeSignedIn : string;
  passwordLabel : string;
  forgetPasswordLabel : string;
  contactUsTitle : string;
  thankYouTitle : string;
  thankYouMessage : string;
  sendButton : string;
  okButton : string;
  userSupportTitle : string;
  phoneNumber : string;
  emailLabel : string;
  nameLabel : string;
  phoneLabel : string;
  reasonLabel : string;
  messageLabel : string;
  messagePlaceholder : string;
  reasonOptions : list ReasonOption;
}.

Record BrandConfig := mkBrandConfig {
  name : string;
  logoPath : string;
  tagline : string;
  primaryColor : string;
  secondaryColor : string;
  labels : LabelSet;
}.

Definition defaultReasonOptions : list ReasonOption :=
  [ mkReasonOption "" "Select...";
    mkReasonOption "technical-support" "Technical Support";
    mkReasonOption "billing" "Billing";
    mkReasonOption "general-inquiry" "General Inquiry";
    mkReasonOption "feature-request" "Feature Request";
    mkReasonOption "other" "Other" ].

Definition greenheck : BrandConfig :=
  {| name := "Greenheck";
     logoPath := "Greenheck_Logo.png";
     tagline := "";
     primaryColor := "#1e40af";
     secondaryColor := "#6b7280";
     labels :=
       {| loginLabel := "Log In";
          loginPagePara := "Please log in to your Greenheck account.";
          createAccountLabel := "Create Account";
          buttonLabelNext := "Next";
          needHelpLabel := "Need help?";
          keepMeSignedIn := "Keep me signed in";
          passwordLabel := "Password";
          forgetPasswordLabel := "Forget Password?";
          contactUsTitle := "Contact Us";
          thankYouTitle := "Thank You!";
          thankYouMessage :=
            "Your Contact request has been submitted. A team member will contact you soon.";
          sendButton := "Send";
          okButton := "OK";
          userSupportTitle := "User Support:";
          phoneNumber := "(855) 886-8324";
          emailLabel := "*Email Address";
          nameLabel := "Name";
          phoneLabel := "Phone Number";
          reasonLabel := "*Reason";
          messageLabel := "*Message";
          messagePlaceholder := "Enter Message";
          reasonOptions := defaultReasonOptions |} |}.

Definition neutral : BrandConfig :=
  {| name := "Company";
     logoPath := "https://via.placeholder.com/200x60/4b5563/ffffff?text=LOGO";
     tagline := "";
     primaryColor := "#4b5563";
     secondaryColor := "#6b7280";
     labels :=
       {| loginLabel := "Log In";
          loginPagePara := "Please log in to your account.";
          createAccountLabel := "Create Account";
          buttonLabelNext := "Next";
          needHelpLabel := "Need help?";
          keepMeSignedIn := "Keep me signed in";
          passwordLabel := "Password";
          forgetPasswordLabel := "Forget Password?";
          contactUsTitle := "Contact Us";
          thankYouTitle := "Thank You!";
          thankYouMessage :=
            "Your Contact request has been submitted. A team member will contact you soon.";
          sendButton := "Send";
          okButton := "OK";
          userSupportTitle := "User Support:";
          phoneNumber := "(855) 123-4567";
          emailLabel := "*Email Address";
          nameLabel := "Name";
          phoneLabel := "Phone Number";
          reasonLabel := "*Reason";
          messageLabel := "*Message";
          messagePlaceholder := "Enter Message";
          reasonOptions := defaultReasonOptions |} |}.

(** The registry is an object literal: its own properties, in the order
    they are written. *)
Definition BRAND_CONFIGS : list (string * BrandConfig) :=
  [ ("greenheck", greenheck); ("neutral", neutral) ].

(** The initial value of [let currentBrand]. *)
Definition initialBrand : string := "greenheck".

(** ** Property lookup

    [BRAND_CONFIGS[key]] looks among the own properties first and then
    along the prototype chain.  The prototype of an object literal is
    [Object.prototype], whose members are functions, except [__proto__],
    which reads as [Object.prototype] itself: all of them are truthy. *)

Definition objectPrototypeKeys : list string :=
  [ "constructor"; "hasOwnProperty"; "isPrototypeOf"; "propertyIsEnumerable";
    "toLocaleString"; "toString"; "valueOf"; "__proto__";
    "__defineGetter__"; "__defineSetter__"; "__lookupGetter__"; "__lookupSetter__" ].

Inductive property :=
  | Own (c : BrandConfig)
  | Inherited (key : string).

Fixpoint getOwn (o : list (string * BrandConfig)) (key : string) : option BrandConfig :=
  match o with
  | [] => None
  | (k, c) :: t => if String.eqb k key then Some c else getOwn t key
  end.

(** [o[key]]; [None] is [undefined]. *)
Definition getProperty (o : list (string * BrandConfig)) (key : string) : option property :=
  match getOwn o key with
  | Some c => Some (Own c)
  | None =>
      if existsb (String.eqb key) objectPrototypeKeys then Some (Inherited key) else None
  end.

(** [Object.keys(o)] *)
Definition keys (o : list (string * BrandConfig)) : list string := map fst o.

(** Reading a field of a looked-up value: a record has it, an inherited
    member does not ([undefined]), and reading a field of [undefined]
    itself throws. *)
Definition field {A} (what : string) (f : BrandConfig -> A) (v : option property)
  : M (option A) :=
  match v with
  | Some (Own c) => ret (Some (f c))
  | Some (Inherited _) => ret None
  | None => throw (TypeError ("Cannot read properties of undefined (reading '"
                              +:+ what +:+ "')"))
  end.

(** [.name] exists on functions too. *)
Definition fieldName (v : option property) : M (option string) :=
  match v with
  | Some (Own c) => ret (Some (name c))
  | Some (Inherited k) =>
      ret (if String.eqb k "__proto__" then None
           else if String.eqb k "constructor" then Some "Object"
           else Some k)
  | None => throw (TypeError "Cannot read properties of undefined (reading 'name')")
  end.

(** Conversion of a possibly undefined string: in a template literal or
    a string property, and for [textContent], where [undefined] is taken
    as [null] and clears the text. *)
Definition toString (o : option string) : string :=
  match o with Some s => s | None => "undefined" end.

Definition orEmpty (o : option string) : string :=
  match o with Some s => s | None => "" end.

(** ** darkenColor (config.js 335-344) *)

(** The literal [2.55] as a double: 5742089524897382 * 2^-51. *)
Definition c2_55 : spec_float := S754_finite false 5742089524897382 (-51).

(** [x < 255 ? x < 1 ? 0 : x : 255] *)
Definition clampLane (x : number) : number :=
  if lt x (Int 255) then (if lt x (Int 1) then Int 0 else x) else Int 255.

Definition darkenColor (color : jsstring) (percent : spec_float) : jsstring :=
  let num := parseInt16 (removeFirst (code "#") color) in
  let amt := Math_round (SFmul prec emax c2_55 percent) in
  let R := sub (Int (sar num 16)) amt in
  let G := sub (Int (band (sar num 8) 255)) amt in
  let B := sub (Int (band (ToInt32 num) 255)) amt in
  utf16 "#" ++
  slice1 (toString16
            (add (add (add (Int 16777216) (mul (clampLane R) (Int 65536)))
                      (mul (clampLane G) (Int 256)))
                 (clampLane B))).

(** ** The current brand (config.js 86-108) *)

(** [BRAND_CONFIGS[currentBrand] || BRAND_CONFIGS.greenheck] *)
Definition getCurrentBrandConfig (w : World) : option property :=
  match getProperty BRAND_CONFIGS (currentBrand w) with
  | Some v => Some v
  | None => getProperty BRAND_CONFIGS "greenheck"
  end.

(** ** Rendering a brand (config.js 166-371) *)

Definition byId (i : string) : M (option nat) :=
  gets (fun w => Dom.getElementById (document w) i).

Definition bySelector (sel : Dom.selector) : M (option nat) :=
  gets (fun w => Dom.querySelector (document w) sel).

(** [const el = document.getElementById(i); if (el) el.textContent = t] *)
Definition setTextById (i t : string) : M unit :=
  do el <- byId i;
  whenSome el (fun h => onDocument (Dom.setTextContent h t)).

Definition setTextBySelector (sel : Dom.selector) (t : string) : M unit :=
  do el <- bySelector sel;
  whenSome el (fun h => onDocument (Dom.setTextContent h t)).

(** [const b = document.getElementById(i);
     if (b) b.querySelector('span').textContent = t] *)
Definition setSpanTextById (i t : string) : M unit :=
  do el <- byId i;
  whenSome el (fun h =>
    do span <- gets (fun w => Dom.querySelectorIn (document w) h (Dom.Any [Dom.Tag "span"]));
    match span with
    | Some s => onDocument (Dom.setTextContent s t)
    | None => throw (TypeError "Cannot set properties of null (setting 'textContent')")
    end).

Definition labelSpan (target : string) : Dom.selector :=
  Dom.Inside (Dom.TagAttr "label" "for" target) (Dom.Tag "span").

Definition updateContactFormLabels (l : LabelSet) : M unit :=
  run setTextBySelector (labelSpan "contact-email") (emailLabel l);
  run setTextBySelector (labelSpan "contact-name") (nameLabel l);
  run setTextBySelector (labelSpan "contact-phone") (phoneLabel l);
  run setTextBySelector (labelSpan "contact-reason") (reasonLabel l);
  run setTextBySelector (labelSpan "contact-message") (messageLabel l);
  do messageTextarea <- byId "contact-message";
  whenSome messageTextarea (fun h =>
    onDocument (Dom.updateNode h (Dom.setAttr "placeholder" (messagePlaceholder l)))).

Definition updateReasonOptions (options : list ReasonOption) : M unit :=
  do reasonSelect <- byId "contact-reason";
  whenSome reasonSelect (fun sel =>
    (* innerHTML = '' *)
    run onDocument (Dom.setTextContent sel "");
    forEach options (fun option =>
      do optionElement <- createElement "option";
      run onDocument (Dom.updateNode optionElement (Dom.setAttr "value" (value option)));
      run onDocument (Dom.setTextContent optionElement (text option));
      onDocument (Dom.appendChild sel optionElement))).

Definition updateLabels (l : LabelSet) : M unit :=
  run setTextById "login-heading" (loginLabel l);
  run setTextById "login-description" (loginPagePara l);
  run setTextById "email-label" (emailLabel l);
  run setTextById "keep-signed-in-label" (keepMeSignedIn l);
  run setTextById "next-button-text" (buttonLabelNext l);
  run setTextById "create-account-link" (createAccountLabel l);
  run setTextById "need-help-link" (needHelpLabel l);
  run setTextById "contact-modal-title" (contactUsTitle l);
  run setTextBySelector (Dom.Any [Dom.Class "support-title"]) (userSupportTitle l);
  run setTextBySelector (Dom.Any [Dom.Class "phone-number"]) (phoneNumber l);
  run updateContactFormLabels l;
  run updateReasonOptions (reasonOptions l);
  run setTextById "thank-you-modal-title" (thankYouTitle l);
  run setTextBySelector (Dom.Any [Dom.Class "thank-you-message"]) (thankYouMessage l);
  run setSpanTextById "ok-button" (okButton l);
  setSpanTextById "send-button" (sendButton l).

(** [root.style.setProperty(p, v)] *)
Definition setProperty (p : string) (v : jsstring) : M unit :=
  onDocument (fun d => Dom.withRootStyle d (<[p := v]> (Dom.rootStyle d))).

Definition updateColors (primary secondary : jsstring) : M unit :=
  run setProperty "--primary-blue" primary;
  run setProperty "--secondary-gray" secondary;
  run setProperty "--brand-primary-color" primary;
  run setProperty "--brand-secondary-color" secondary;
  run setProperty "--brand-accent-color" primary;
  run setProperty "--brand-accent-hover" (darkenColor primary (double_of_Z 20));
  run setProperty "--brand-link-color" primary;
  run setProperty "--brand-link-hover" (darkenColor primary (double_of_Z 20));
  run setProperty "--brand-focus-color" primary;
  run setProperty "--btn-bg" primary;
  run setProperty "--link-color" primary;
  setProperty "--btn-border-color" primary.

(** [s.toLowerCase()] on the code units below 256. *)
Definition toLowerCase (s : string) : string :=
  string_of_list_ascii
    (map (fun a =>
            let n := nat_of_ascii a in
            if ((65 <=? n) && (n <=? 90) ||
                (192 <=? n) && (n <=? 222) && negb (n =? 215))%nat
            then ascii_of_nat (n + 32) else a)
         (list_ascii_of_string s)).

Definition quote : string := String "034"%char EmptyString.

(** [JSON.stringify] of a string without characters to escape, as the
    labels and names of the registry are. *)
Definition jsonString (s : string) : string := quote +:+ s +:+ quote.

Definition jsonMember (k v : string) : string := jsonString k +:+ ":" +:+ v.

Definition structuredDataJson (c : BrandConfig) : string :=
  "{" +:+ jsonMember "@context" (jsonString "https://schema.org") +:+ ","
      +:+ jsonMember "@type" (jsonString "WebPage") +:+ ","
      +:+ jsonMember "name" (jsonString (loginLabel (labels c) +:+ " Page")) +:+ ","
      +:+ jsonMember "description"
            (jsonString (loginLabel (labels c) +:+ " page for " +:+ name c
                         +:+ " user authentication")) +:+ ","
      +:+ jsonMember "publisher"
            ("{" +:+ jsonMember "@type" (jsonString "Organization") +:+ ","
                 +:+ jsonMember "name" (jsonString (name c)) +:+ ","
                 +:+ jsonMember "url"
                       (jsonString ("https://www." +:+ toLowerCase (name c) +:+ ".com"))
                 +:+ "}")
      +:+ "}".

Definition ldJsonScript : Dom.selector :=
  Dom.Any [Dom.TagAttr "script" "type" "application/ld+json"].

Definition updateStructuredData (c : BrandConfig) : M unit :=
  do found <- bySelector ldJsonScript;
  do script <-
    match found with
    | Some s => ret s
    | None =>
        do s <- createElement "script";
        run onDocument (Dom.updateNode s (Dom.setAttr "type" "application/ld+json"));
        run onDocument (fun d => Dom.appendChild (Dom.head d) s d);
        ret s
    end;
  onDocument (Dom.setTextContent script (structuredDataJson c)).

Definition metaDescription : Dom.selector :=
  Dom.Any [Dom.TagAttr "meta" "name" "description"].

Definition applyBrandConfiguration : M unit :=
  do config <- gets getCurrentBrandConfig;
  do logo <- byId "company-logo";
  run whenSome logo (fun h =>
    do src <- field "logoPath" logoPath config;
    run onDocument (Dom.updateNode h (Dom.setAttr "src" (toString src)));
    do n <- fieldName config;
    onDocument (Dom.updateNode h (Dom.setAttr "alt" (toString n +:+ " Logo"))));
  do taglineEl <- byId "company-tagline";
  run whenSome taglineEl (fun h =>
    do t <- field "tagline" tagline config;
    onDocument (Dom.setTextContent h (orEmpty t)));
  do ls <- field "labels" labels config;
  match ls with
  | None => throw (TypeError "Cannot read properties of undefined (reading 'loginLabel')")
  | Some l =>
      do n <- fieldName config;
      run onDocument (fun d => Dom.withTitle d (loginLabel l +:+ " - " +:+ toString n));
      do meta <- bySelector metaDescription;
      run whenSome meta (fun h =>
        onDocument (Dom.updateNode h
          (Dom.setAttr "content"
             (loginLabel l +:+ " to your " +:+ toString n
              +:+ " account - Secure access to your dashboard"))));
      run updateLabels l;
      do p <- field "primaryColor" primaryColor config;
      do s <- field "secondaryColor" secondaryColor config;
      run updateColors (utf16 (toString p)) (utf16 (toString s));
      match config with
      | Some (Own c) => updateStructuredData c
      | _ => ret tt
      end
  end.

(** ** setBrand (config.js 101-108) *)

Definition isTruthy (v : option property) : bool :=
  match v with Some _ => true | None => false end.

Definition setBrand (brandName : string) : M unit :=
  if isTruthy (getProperty BRAND_CONFIGS brandName) then
    run setCurrentBrand brandName;
    applyBrandConfiguration
  else
    console_emit WarnLevel
      ("Brand configuration '" +:+ brandName +:+ "' not found. Using default.").

(** ** initializeConfig (config.js 376-387); [brandParam] is the value of
    [urlParams.get('brand')], [None] for [null]. *)
Definition initializeConfig (brandParam : option string) : M unit :=
  match brandParam with
  | Some b =>
      if negb (String.eqb b "") && isTruthy (getProperty BRAND_CONFIGS b)
      then setBrand b
      else applyBrandConfiguration
  | None => applyBrandConfiguration
  end.

(** [BrandConfig.getAvailableBrands()] *)
Definition getAvailableBrands : list string := keys BRAND_CONFIGS.

End Config.

(* ================================================================== *)
(** * script.js *)
(* ================================================================== *)

Module Script.
Import JS Page.

(** The initial [AppState] (script.js 7-11). *)
Definition initialAppState : AppState := mkAppState false false None.

(** ** FormValidator (script.js 14-34) *)

Module FormValidator.
Import Regex.

(** [[^\s@]] *)
Definition notSpaceNorAt : class := NoneOf [Space; Chr (code "@")].

(** [/^[^\s@]+@[^\s@]+\.[^\s@]+$/] *)
Definition emailRegex : re :=
  Cat (Plus (Cls notSpaceNorAt))
      (Cat (Lit (code "@"))
           (Cat (Plus (Cls notSpaceNorAt))
                (Cat (Lit (code "."))
                     (Plus (Cls notSpaceNorAt))))).

Definition validateEmail (email : jsstring) : bool := test emailRegex email.

(** [/^[\+]?[1-9][\d]{0,15}$/] *)
Definition phoneRegex : re :=
  Cat (Opt (Cls (OneOf [Chr (code "+")])))
      (Cat (Cls (OneOf [Range (code "1") (code "9")]))
           (UpTo 15 (Cls (OneOf [Digit])))).

(** [[\s\-\(\)]] *)
Definition separators : class :=
  OneOf [Space; Chr (code "-"); Chr (code "("); Chr (code ")")].

Definition validatePhone (phone : jsstring) : bool :=
  let cleanPhone := removeAll separators phone in
  test phoneRegex cleanPhone.

(** [value && value.trim().length > 0] *)
Definition validateRequired (v : jsstring) : value :=
  and_ (VString v) (VBool (0 <? length (trim v))%nat).

(** [message && message.length <= maxLength] *)
Definition validateMessageLength (message : jsstring) (maxLength : nat) : value :=
  and_ (VString message) (VBool (length message <=? maxLength)%nat).

(** The default value of the [maxLength] parameter. *)
Definition defaultMaxLength : nat := 2000.

End FormValidator.

(** ** AccessibilityUtils (script.js 37-84) *)

Module AccessibilityUtils.

(** ['button, [href], input, select, textarea, [tabindex]:not([tabindex="-1"])'] *)
Definition focusable : Dom.selector :=
  Dom.Any [Dom.Tag "button"; Dom.HasAttr "href"; Dom.Tag "input"; Dom.Tag "select";
           Dom.Tag "textarea"; Dom.TabIndexed].

(** The keydown handler is registered with the first and the last
    focusable element it closes over. *)
Definition trapFocus (element : nat) : M unit :=
  do focusableElements <- gets (fun w => Dom.querySelectorAllIn (document w) element focusable);
  let firstElement := List.head focusableElements in
  let lastElement := List.last (map Some focusableElements) None in
  onDocument (fun d =>
    Dom.withListeners d (Dom.listeners d ++ [Dom.KeydownTrap element firstElement lastElement])).

Definition announceToScreenReader (message : string) : M unit :=
  do announcement <- createElement "div";
  run onDocument (Dom.updateNode announcement (Dom.setAttr "aria-live" "polite"));
  run onDocument (Dom.updateNode announcement (Dom.setAttr "aria-atomic" "true"));
  run onDocument (Dom.updateNode announcement (Dom.setClassList ["sr-only"]));
  run onDocument (Dom.setTextContent announcement message);
  run onDocument (fun d => Dom.appendChild (Dom.body d) announcement d);
  onDocument (fun d =>
    Dom.withTimers d (Dom.timers d ++ [Dom.RemoveChildAfter 1000 (Dom.body d) announcement])).

Definition setFocusManagement (modal : nat) : M unit :=
  do focusableElements <- gets (fun w => Dom.querySelectorAllIn (document w) modal focusable);
  match focusableElements with
  | first :: _ => onDocument (Dom.focus first)
  | [] => ret tt
  end.

End AccessibilityUtils.

(** ** ModalManager (script.js 87-160) *)

Module ModalManager.
Import AccessibilityUtils.

Definition setCurrentFocusedElement (e : option nat) (a : AppState) : AppState :=
  mkAppState (isContactModalOpen a) (isThankYouModalOpen a) e.

Definition setContactModalOpen (b : bool) (a : AppState) : AppState :=
  mkAppState b (isThankYouModalOpen a) (currentFocusedElement a).

Definition setThankYouModalOpen (b : bool) (a : AppState) : AppState :=
  mkAppState (isContactModalOpen a) b (currentFocusedElement a).

Definition openModal (modalId : string) : M unit :=
  do found <- gets (fun w => Dom.getElementById (document w) modalId);
  match found with
  | None => ret tt
  | Some modal =>
      do active <- gets (fun w => Dom.activeElement (document w));
      run onAppState (setCurrentFocusedElement active);
      run onDocument (Dom.updateNode modal (Dom.classAdd "active"));
      run onDocument (Dom.updateNode modal (Dom.setAttr "aria-hidden" "false"));
      run onDocument (fun d => Dom.withBodyOverflow d "hidden");
      run setFocusManagement modal;
      run trapFocus modal;
      run (if String.eqb modalId "contact-modal" then onAppState (setContactModalOpen true)
           else if String.eqb modalId "thank-you-modal" then onAppState (setThankYouModalOpen true)
           else ret tt);
      do modalTitle <- gets (fun w =>
           Dom.querySelectorIn (document w) modal (Dom.Any [Dom.Class "modal-title"]));
      whenSome modalTitle (fun t =>
        do txt <- gets (fun w => Dom.getTextContent (document w) t);
        announceToScreenReader (txt +:+ " dialog opened"))
  end.

Definition closeModal (modalId : string) : M unit :=
  do found <- gets (fun w => Dom.getElementById (document w) modalId);
  match found with
  | None => ret tt
  | Some modal =>
      run onDocument (Dom.updateNode modal (Dom.classRemove "active"));
      run onDocument (Dom.updateNode modal (Dom.setAttr "aria-hidden" "true"));
      run onDocument (fun d => Dom.withBodyOverflow d "");
      do captured <- gets (fun w => currentFocusedElement (appState w));
      run whenSome captured (fun e =>
        run onDocument (Dom.focus e);
        onAppState (setCurrentFocusedElement None));
      run (if String.eqb modalId "contact-modal" then onAppState (setContactModalOpen false)
           else if String.eqb modalId "thank-you-modal" then onAppState (setThankYouModalOpen false)
           else ret tt);
      announceToScreenReader "Dialog closed"
  end.

Definition closeAllModals : M unit :=
  do modals <- gets (fun w => Dom.querySelectorAll (document w) (Dom.Any [Dom.Class "modal-overlay"]));
  run forEach modals (fun modal =>
    run onDocument (Dom.updateNode modal (Dom.classRemove "active"));
    onDocument (Dom.updateNode modal (Dom.setAttr "aria-hidden" "true")));
  run onDocument (fun d => Dom.withBodyOverflow d "");
  run onAppState (setContactModalOpen false);
  onAppState (setThankYouModalOpen false).

End ModalManager.

(** ** FormHandler (script.js 163-274) *)

Module FormHandler.
Import FormValidator.

Record Rule := mkRule {
  validator : jsstring -> value;
  message : string;
}.

Definition showError (fieldId message : string) : M unit :=
  do field <- gets (fun w => Dom.getElementById (document w) fieldId);
  do errorElement <- gets (fun w => Dom.getElementById (document w) (fieldId +:+ "-error"));
  run whenSome field (fun h => onDocument (Dom.updateNode h (Dom.classAdd "error")));
  whenSome errorElement (fun h =>
    run onDocument (Dom.setTextContent h message);
    onDocument (Dom.updateNode h (Dom.classAdd "show"))).

Definition clearError (fieldId : string) : M unit :=
  do field <- gets (fun w => Dom.getElementById (document w) fieldId);
  do errorElement <- gets (fun w => Dom.getElementById (document w) (fieldId +:+ "-error"));
  run whenSome field (fun h => onDocument (Dom.updateNode h (Dom.classRemove "error")));
  whenSome errorElement (fun h =>
    run onDocument (Dom.setTextContent h "");
    onDocument (Dom.updateNode h (Dom.classRemove "show"))).

(** The [for ... of] loop of [validateField]: the message of the first
    rule whose validator returns a falsy value. *)
Fixpoint firstFailure (validationRules : list Rule) (v : jsstring) : option string :=
  match validationRules with
  | [] => None
  | rule :: rest =>
      if not_ (validator rule v) then Some (message rule) else firstFailure rest v
  end.

Definition validateField (fieldId : string) (v : jsstring) (validationRules : list Rule)
  : M bool :=
  match firstFailure validationRules v with
  | None => run clearError fieldId; ret true
  | Some errorMessage => run showError fieldId errorMessage; ret false
  end.

Definition requiredEmailRules : list Rule :=
  [ mkRule (fun v => validateRequired v) "Email address is required";
    mkRule (fun v => VBool (validateEmail v)) "Please enter a valid email address" ].

Definition validateLoginForm (email : jsstring) : M bool :=
  do emailValid <- validateField "email" email requiredEmailRules;
  ret emailValid.

Record FormData := mkFormData {
  email : jsstring;
  name : jsstring;
  phone : jsstring;
  reason : jsstring;
  messageText : jsstring;     (* formData.message *)
}.

(** [!value || value.trim().length >= 2] *)
Definition nameRules : list Rule :=
  [ mkRule (fun v => or_ (VBool (not_ (VString v))) (VBool (2 <=? length (trim v))%nat))
           "Name must be at least 2 characters long" ].

(** [!value || FormValidator.validatePhone(value)] *)
Definition phoneRules : list Rule :=
  [ mkRule (fun v => or_ (VBool (not_ (VString v))) (VBool (validatePhone v)))
           "Please enter a valid phone number" ].

Definition reasonRules : list Rule :=
  [ mkRule (fun v => validateRequired v) "Please select a reason for contact" ].

Definition messageRules : list Rule :=
  [ mkRule (fun v => validateRequired v) "Message is required";
    mkRule (fun v => validateMessageLength v defaultMaxLength)
           "Message must be 2000 characters or less" ].

Definition validateContactForm (formData : FormData) : M bool :=
  do emailValid <- validateField "contact-email" (email formData) requiredEmailRules;
  do nameValid <- validateField "contact-name" (name formData) nameRules;
  do phoneValid <- validateField "contact-phone" (phone formData) phoneRules;
  do reasonValid <- validateField "contact-reason" (reason formData) reasonRules;
  do messageValid <- validateField "contact-message" (messageText formData) messageRules;
  ret (emailValid && nameValid && phoneValid && reasonValid && messageValid).

End FormHandler.

End Script.

(* ================================================================== *)
(** * Vocabulary of the specification *)
(* ================================================================== *)

Module Spec.
Import JS.

(** *** Hexadecimal notation *)

Definition lowerHex : jsstring := utf16 "0123456789abcdef".
Definition upperHex : jsstring := utf16 "0123456789ABCDEF".

Fixpoint indexOf (c : N) (s : jsstring) : option nat :=
  match s with
  | [] => None
  | d :: t => if (c =? d)%N then Some O else option_map S (indexOf c t)
  end.

(** The value of a hexadecimal digit, written in either case. *)
Definition digitValue (c : N) : option Z :=
  match indexOf c lowerHex with
  | Some i => Some (Z.of_nat i)
  | None => option_map Z.of_nat (indexOf c upperHex)
  end.

Definition isHex (c : N) : bool :=
  match digitValue c with Some _ => true | None => false end.

Definition digit (c : N) : Z :=
  match digitValue c with Some v => v | None => 0 end.

(** The lower-case digit of a value below 16. *)
Definition hexChar (d : Z) : N := nth (Z.to_nat d) lowerHex 0%N.

(** The two lower-case hexadecimal digits of a byte. *)
Definition hex2 (n : Z) : jsstring := [hexChar (n / 16); hexChar (n mod 16)].

(** Clamping to [0, 255]. *)
Definition clamp (z : Z) : Z := Z.max 0 (Z.min 255 z).

(** The byte lane written by a pair of hexadecimal digits. *)
Definition lane (hi lo : N) : Z := 16 * digit hi + digit lo.

(** Number of occurrences of a code unit. *)
Definition occurrences (c : N) (s : jsstring) : nat :=
  length (List.filter (N.eqb c) s).

Definition spaceFree (s : jsstring) : Prop :=
  Forall (fun c => isWhiteSpace c = false) s.

(** A single [@]; before it a non-empty local part without white space;
    after it a domain made of two non-empty parts without white space
    around a dot. *)
Definition emailShape (s : jsstring) : Prop :=
  occurrences (code "@") s = 1%nat /\
  exists localPart domain,
    s = localPart ++ code "@" :: domain /\
    localPart <> [] /\ spaceFree localPart /\
    exists a b,
      domain = a ++ code "." :: b /\
      a <> [] /\ b <> [] /\ spaceFree a /\ spaceFree b.

(** Space, dash and parenthesis characters. *)
Definition isSeparator (c : N) : bool :=
  isWhiteSpace c || (c =? code "-")%N || (c =? code "(")%N || (c =? code ")")%N.

Definition stripSeparators (s : jsstring) : jsstring :=
  List.filter (fun c => negb (isSeparator c)) s.

Definition isDecimalDigit (c : N) : bool :=
  ((code "0" <=? c) && (c <=? code "9"))%N.

(** An optional [+], a digit 1-9, then at most 15 digits. *)
Definition phoneShape (s : jsstring) : Prop :=
  exists sign d rest,
    s = sign ++ d :: rest /\
    (sign = [] \/ sign = [code "+"]) /\
    (code "1" <= d <= code "9")%N /\
    Forall (fun c => isDecimalDigit c = true) rest /\
    (length rest <= 15)%nat.

(** The element captured for restoring focus. *)
Definition captured (w : Page.World) : option nat :=
  Page.currentFocusedElement (Page.appState w).

(** *** Field validation *)

Import Script.FormHandler.

(** The id of the error element of a field. *)
Definition errorId (fieldId : string) : string := fieldId +:+ "-error".

(** The text of the error element of a field, when the page has one. *)
Definition errorShown (d : Dom.Document) (fieldId : string) : option string :=
  match Dom.getElementById d (errorId fieldId) with
  | Some h => Some (Dom.getTextContent d h)
  | None => None
  end.

(** What [showError] and [clearError] have in common: a change [g1] to
    the field, a text [t] and a change [g2] for its error element. *)
Definition errorUpdate (fieldId : string) (g1 g2 : Dom.Element -> Dom.Element) (t : string)
  : Page.M unit :=
  Page.bind (Page.gets (fun w => Dom.getElementById (Page.document w) fieldId)) (fun field =>
  Page.bind (Page.gets (fun w => Dom.getElementById (Page.document w) (fieldId +:+ "-error")))
    (fun errorElement =>
  Page.bind (Page.whenSome field (fun h => Page.onDocument (Dom.updateNode h g1))) (fun _ =>
  Page.whenSome errorElement (fun h =>
    Page.bind (Page.onDocument (Dom.setTextContent h t)) (fun _ =>
    Page.onDocument (Dom.updateNode h g2)))))).

(** A value passes a rule list when every validator accepts it. *)
Definition passes (rules : list Rule) (v : jsstring) : bool :=
  forallb (fun r => truthy (validator r v)) rules.

(** What is reported for a value: the message of the first rule that
    rejects it, the empty text when none does. *)
Definition reported (rules : list Rule) (v : jsstring) : string :=
  match List.find (fun r => negb (truthy (validator r v))) rules with
  | Some r => message r
  | None => ""
  end.

(** The five fields of the contact form, each with its value and its
    own rule list. *)
Definition contactFields (fd : FormData) : list (string * jsstring * list Rule) :=
  [ ("contact-email", email fd, requiredEmailRules);
    ("contact-name", name fd, nameRules);
    ("contact-phone", phone fd, phoneRules);
    ("contact-reason", reason fd, reasonRules);
    ("contact-message", messageText fd, messageRules) ].

Definition contactFieldIds : list string :=
  [ "contact-email"; "contact-name"; "contact-phone"; "contact-reason"; "contact-message" ].

(** Validating a list of fields in order. *)
Fixpoint validateAll (fields : list (string * jsstring * list Rule)) : Page.M (list bool) :=
  match fields with
  | [] => Page.ret []
  | (f, v, rules) :: rest =>
      Page.bind (validateField f v rules) (fun b =>
      Page.bind (validateAll rest) (fun bs => Page.ret (b :: bs)))
  end.

(** *** Shape of a document *)

(** An element without descendants. *)
Definition childless (d : Dom.Document) (h : nat) : bool :=
  forallb (fun k => negb (Dom.isDescendant (Dom.nodes d) h k))
          (seq 0 (length (Dom.nodes d))).

(** The error elements of the given fields that exist hold text only. *)
Definition errorElementsChildless (d : Dom.Document) (fieldIds : list string) : bool :=
  forallb (fun f => match Dom.getElementById d (errorId f) with
                    | Some h => childless d h
                    | None => true
                    end) fieldIds.

(** What lookups by id and the tree structure depend on. *)
Definition shape (e : Dom.Element) : string * bool * option nat :=
  (Dom.id e, Dom.isConnected e, Dom.parentNode e).

Definition sameShape (ns ns' : list Dom.Element) : Prop :=
  map shape ns = map shape ns'.

(** *** Theming *)

(** The custom properties a colour pair stands for. *)
Definition themeProperties (primary secondary : jsstring) : list (string * jsstring) :=
  [ ("--primary-blue", primary);
    ("--secondary-gray", secondary);
    ("--brand-primary-color", primary);
    ("--brand-secondary-color", secondary);
    ("--brand-accent-color", primary);
    ("--brand-accent-hover", Config.darkenColor primary (double_of_Z 20));
    ("--brand-link-color", primary);
    ("--brand-link-hover", Config.darkenColor primary (double_of_Z 20));
    ("--brand-focus-color", primary);
    ("--btn-bg", primary);
    ("--link-color", primary);
    ("--btn-border-color", primary) ].

(** The root style of the page. *)
Definition rootStyleOf (w : Page.World) : gmap string jsstring :=
  Dom.rootStyle (Page.document w).

End Spec.

(* ================================================================== *)
(** * A sample page *)
(* ================================================================== *)

(** A document with the elements the scripts look for, used to run the
    functions on concrete states. *)

Module Examples.
Import Page.

Definition element (tag i : string) (classes : list string)
    (attrs : list (string * string)) (txt : string) (parent : option nat) : Dom.Element :=
  Dom.mkElement tag i classes (list_to_map attrs) txt parent true.

Definition pageNodes : list Dom.Element :=
  [ (*  0 *) element "html" "" [] [] "" None;
    (*  1 *) element "head" "" [] [] "" (Some 0%nat);
    (*  2 *) element "body" "" [] [] "" (Some 0%nat);
    (*  3 *) element "a" "need-help-link" [] [("href", "#")] "Need help?" (Some 2%nat);
    (*  4 *) element "div" "contact-modal" ["modal-overlay"] [("aria-hidden", "true")] ""
                     (Some 2%nat);
    (*  5 *) element "h2" "contact-modal-title" ["modal-title"] [] "Contact Us" (Some 4%nat);
    (*  6 *) element "button" "close-contact-modal" [] [] "" (Some 4%nat);
    (*  7 *) element "input" "contact-email" ["form-input"] [] "" (Some 4%nat);
    (*  8 *) element "div" "contact-email-error" ["error-message"] [] "" (Some 4%nat);
    (*  9 *) element "input" "contact-name" ["form-input"] [] "" (Some 4%nat);
    (* 10 *) element "div" "contact-name-error" ["error-message"] [] "" (Some 4%nat);
    (* 11 *) element "input" "contact-phone" ["form-input"] [] "" (Some 4%nat);
    (* 12 *) element "div" "contact-phone-error" ["error-message"] [] "" (Some 4%nat);
    (* 13 *) element "select" "contact-reason" ["form-select"] [] "" (Some 4%nat);
    (* 14 *) element "div" "contact-reason-error" ["error-message"] [] "" (Some 4%nat);
    (* 15 *) element "textarea" "contact-message" ["form-textarea"] [] "" (Some 4%nat);
    (* 16 *) element "div" "contact-message-error" ["error-message"] [] "" (Some 4%nat);
    (* 17 *) element "div" "thank-you-modal" ["modal-overlay"] [("aria-hidden", "true")] ""
                     (Some 2%nat);
    (* 18 *) element "button" "ok-button" [] [] "" (Some 17%nat);
    (* 19 *) element "span" "" [] [] "OK" (Some 18%nat);
    (* 20 *) element "img" "company-logo" [] [("src", "Greenheck_Logo.png")] "" (Some 2%nat) ].

(** The page once loaded, with the help link focused. *)
Definition pageDocument : Dom.Document :=
  Dom.mkDocument pageNodes 1 2 (Some 3%nat) "Log In - Greenheck" ∅ "" [] [].

Definition page : World :=
  mkWorld Config.initialBrand Script.initialAppState pageDocument [].

(** A submission with a valid email and nothing else filled in. *)
Definition emailOnly : Script.FormHandler.FormData :=
  Script.FormHandler.mkFormData (JS.utf16 "user@example.com") [] [] [] [].

End Examples.

(* ================================================================== *)
(** * Properties *)
(* ================================================================== *)

(** ** darkenColor *)

Module ColorFacts.
Import JS Config Spec.

Lemma isHexDigit_inv c :
  isHexDigit c = true ->
  (48 <= c <= 57 \/ 65 <= c <= 70 \/ 97 <= c <= 102)%N.
Proof.
  unfold isHexDigit, hexValue.
  destruct (N.leb_spec 48 c), (N.leb_spec c 57); simpl; try lia;
  destruct (N.leb_spec 97 c), (N.leb_spec c 102); simpl; try lia;
  destruct (N.leb_spec 65 c), (N.leb_spec c 70); simpl; try lia; discriminate.
Qed.

Lemma hexValue0_range c : isHexDigit c = true -> 0 <= hexValue0 c < 16.
Proof.
  intros H. pose proof (isHexDigit_inv c H) as Hc.
  unfold hexValue0, hexValue.
  destruct (N.leb_spec 48 c), (N.leb_spec c 57); simpl; try lia;
  destruct (N.leb_spec 97 c), (N.leb_spec c 102); simpl; try lia;
  destruct (N.leb_spec 65 c), (N.leb_spec c 70); simpl; try lia.
Qed.

(** The digits [parseInt] reads and the digits [toString(16)] writes are
    those of the hexadecimal notation. *)
Lemma indexOf_above c s :
  forallb (fun d => (d <? c)%N) s = true -> indexOf c s = None.
Proof.
  induction s as [| d s IH]; simpl; [reflexivity |].
  intros H. apply andb_true_iff in H as [Hd Hs]. apply N.ltb_lt in Hd.
  destruct (N.eqb_spec c d) as [-> | _]; [lia |]. now rewrite IH.
Qed.

Lemma hexValue_digitValue_table :
  forallb (fun n => match hexValue (N.of_nat n), digitValue (N.of_nat n) with
                    | Some v, Some w => v =? w
                    | None, None => true
                    | _, _ => false
                    end) (seq 0 103) = true.
Proof. vm_compute. reflexivity. Qed.

Lemma hexValue_digitValue c : hexValue c = digitValue c.
Proof.
  destruct (N.le_gt_cases c 102) as [Hc | Hc].
  - pose proof hexValue_digitValue_table as H. rewrite forallb_forall in H.
    specialize (H (N.to_nat c)). rewrite N2Nat.id in H.
    assert (Hin : In (N.to_nat c) (seq 0 103)) by (apply in_seq; lia).
    specialize (H Hin).
    destruct (hexValue c) as [v |], (digitValue c) as [w |]; try discriminate H;
      [| reflexivity].
    apply Z.eqb_eq in H. now subst.
  - unfold digitValue.
    rewrite !indexOf_above by (apply forallb_forall; intros d Hd; apply N.ltb_lt;
      vm_compute in Hd; repeat (destruct Hd as [<- | Hd]; [lia |]); destruct Hd).
    unfold hexValue. cbn [option_map].
    destruct (N.leb_spec c 57); [lia |]. rewrite andb_false_r.
    destruct (N.leb_spec c 102); [lia |]. rewrite andb_false_r.
    destruct (N.leb_spec c 70); [lia |]. now rewrite andb_false_r.
Qed.

Lemma isHex_code c : isHex c = isHexDigit c.
Proof. unfold isHex, isHexDigit. now rewrite hexValue_digitValue. Qed.

Lemma digit_code c : digit c = hexValue0 c.
Proof. unfold digit, hexValue0. now rewrite hexValue_digitValue. Qed.

Lemma hexChar_code d : 0 <= d < 16 -> hexChar d = hexDigit d.
Proof.
  intros H.
  assert (Hd : d = 0 \/ d = 1 \/ d = 2 \/ d = 3 \/ d = 4 \/ d = 5 \/ d = 6 \/ d = 7 \/
               d = 8 \/ d = 9 \/ d = 10 \/ d = 11 \/ d = 12 \/ d = 13 \/ d = 14 \/ d = 15)
    by lia.
  repeat (destruct Hd as [-> | Hd]; [reflexivity |]). now subst.
Qed.

Lemma hex2_code n :
  0 <= n <= 255 -> hex2 n = [hexDigit (n / 16); hexDigit (n mod 16)].
Proof.
  intros H. unfold hex2.
  rewrite !hexChar_code by (Z.to_euclidean_division_equations; lia). reflexivity.
Qed.

Lemma isHexDigit_not_space c : isHexDigit c = true -> isWhiteSpace c = false.
Proof.
  intros H. pose proof (isHexDigit_inv c H) as Hc. unfold isWhiteSpace.
  replace (c <=? 13)%N with false by (symmetry; apply N.leb_gt; lia).
  replace (8192 <=? c)%N with false by (symmetry; apply N.leb_gt; lia).
  repeat match goal with
  | |- context [(c =? ?k)%N] =>
      replace (c =? k)%N with false by (symmetry; apply N.eqb_neq; lia)
  end.
  rewrite andb_false_r. reflexivity.
Qed.

Lemma isHexDigit_neq c (k : N) :
  isHexDigit c = true -> isHexDigit k = false -> (c =? k)%N = false.
Proof.
  intros H Hk. apply N.eqb_neq. intros ->. congruence.
Qed.

Lemma Number_of_Z_small z : Z.abs z < 2 ^ 53 -> Number_of_Z z = Int z.
Proof.
  intros H. unfold Number_of_Z.
  destruct (Z.ltb_spec (Z.abs z) (2 ^ 53)); [reflexivity | lia].
Qed.

Lemma ToInt32_small z : - 2 ^ 31 <= z < 2 ^ 31 -> ToInt32 (Int z) = z.
Proof.
  intros H. unfold ToInt32.
  rewrite Z.mod_small by lia. lia.
Qed.

Lemma parseInt16_hex6 d1 d2 d3 d4 d5 d6 :
  Forall (fun c => isHexDigit c = true) [d1; d2; d3; d4; d5; d6] ->
  parseInt16 [d1; d2; d3; d4; d5; d6] =
  Int (lane d1 d2 * 65536 + lane d3 d4 * 256 + lane d5 d6).
Proof.
  intros H.
  repeat match goal with
  | H : Forall _ (_ :: _) |- _ => apply Forall_cons in H; destruct H as [? H]
  end.
  unfold parseInt16, trimStart. cbn [dropWhile].
  rewrite (isHexDigit_not_space d1) by assumption.
  rewrite (isHexDigit_neq d1 (code "-")) by (assumption || reflexivity).
  rewrite (isHexDigit_neq d1 (code "+")) by (assumption || reflexivity).
  rewrite (isHexDigit_neq d2 (code "x")) by (assumption || reflexivity).
  rewrite (isHexDigit_neq d2 (code "X")) by (assumption || reflexivity).
  rewrite andb_false_r.
  cbn [takeWhile].
  repeat match goal with
  | Hd : isHexDigit ?d = true |- context [isHexDigit ?d] => rewrite Hd
  end.
  cbn [fold_left].
  pose proof (hexValue0_range d1 ltac:(assumption)).
  pose proof (hexValue0_range d2 ltac:(assumption)).
  pose proof (hexValue0_range d3 ltac:(assumption)).
  pose proof (hexValue0_range d4 ltac:(assumption)).
  pose proof (hexValue0_range d5 ltac:(assumption)).
  pose proof (hexValue0_range d6 ltac:(assumption)).
  rewrite Number_of_Z_small by (change (2 ^ 53) with 9007199254740992; lia).
  f_equal. unfold lane. rewrite !digit_code. lia.
Qed.

Lemma lane_range hi lo :
  isHexDigit hi = true -> isHexDigit lo = true -> 0 <= lane hi lo < 256.
Proof.
  intros H1 H2. pose proof (hexValue0_range hi H1). pose proof (hexValue0_range lo H2).
  unfold lane. rewrite !digit_code. lia.
Qed.

Lemma lanes_of_num r g b :
  0 <= r < 256 -> 0 <= g < 256 -> 0 <= b < 256 ->
  let num := Int (r * 65536 + g * 256 + b) in
  sar num 16 = r /\ band (sar num 8) 255 = g /\ band (ToInt32 num) 255 = b.
Proof.
  intros Hr Hg Hb num. unfold num, sar, band.
  rewrite ToInt32_small by (change (2 ^ 31) with 2147483648; lia).
  change (16 mod 32) with 16. change (8 mod 32) with 8.
  change 255 with (Z.ones 8).
  rewrite !Z.land_ones by lia.
  rewrite !Z.shiftr_div_pow2 by lia.
  change (2 ^ 16) with 65536. change (2 ^ 8) with 256.
  repeat split; Z.to_euclidean_division_equations; lia.
Qed.

Lemma clampLane_Int z : clampLane (Int z) = Int (clamp z).
Proof.
  unfold clampLane, clamp, lt.
  destruct (Z.ltb_spec z 255), (Z.ltb_spec z 1); f_equal; lia.
Qed.

Lemma clamp_range z : 0 <= clamp z <= 255.
Proof. unfold clamp. lia. Qed.

Lemma toHex_step k q d :
  1 <= q -> 0 <= d < 16 -> toHex (S k) (16 * q + d) = toHex k q ++ [hexDigit d].
Proof.
  intros Hq Hd. cbn [toHex].
  destruct (Z.ltb_spec (16 * q + d) 16); [lia |].
  replace ((16 * q + d) / 16) with q by (Z.to_euclidean_division_equations; lia).
  replace ((16 * q + d) mod 16) with d by (Z.to_euclidean_division_equations; lia).
  reflexivity.
Qed.

Lemma toString16_rgb r g b :
  0 <= r <= 255 -> 0 <= g <= 255 -> 0 <= b <= 255 ->
  toString16 (Int (16777216 + r * 65536 + g * 256 + b)) =
  code "1" :: hex2 r ++ hex2 g ++ hex2 b.
Proof.
  intros Hr Hg Hb. rewrite !hex2_code by lia. unfold toString16.
  set (n := 16777216 + r * 65536 + g * 256 + b).
  assert (Hn : 2 ^ 24 <= n < 2 ^ 25) by (change (2 ^ 24) with 16777216; change (2 ^ 25) with 33554432; lia).
  destruct (Z.ltb_spec n 0); [lia |].
  rewrite Z.abs_eq by lia.
  rewrite (Z.log2_unique n 24) by lia.
  change (S (Z.to_nat 24)) with 25%nat.
  assert (Hdec : n = 16 * (16 * (16 * (16 * (16 * (16 * 1 + r / 16) + r mod 16) + g / 16)
                 + g mod 16) + b / 16) + b mod 16)
    by (unfold n; Z.to_euclidean_division_equations; lia).
  rewrite Hdec.
  repeat (rewrite toHex_step by (Z.to_euclidean_division_equations; lia)).
  reflexivity.
Qed.

Lemma removeFirst_hash_hex ds :
  Forall (fun c => isHexDigit c = true) ds -> removeFirst (code "#") ds = ds.
Proof.
  induction 1 as [| d ds Hd _ IH]; [reflexivity |].
  cbn [removeFirst]. rewrite (isHexDigit_neq d (code "#")) by (assumption || reflexivity).
  now rewrite IH.
Qed.

Lemma darkenColor_general d1 d2 d3 d4 d5 d6 color percent a :
  Forall (fun c => isHex c = true) [d1; d2; d3; d4; d5; d6] ->
  color = code "#" :: [d1; d2; d3; d4; d5; d6] \/ color = [d1; d2; d3; d4; d5; d6] ->
  Math_round (SFmul prec emax c2_55 percent) = Int a ->
  Z.abs a < 2 ^ 52 ->
  parseInt16 (removeFirst (code "#") color)
    = Int (lane d1 d2 * 65536 + lane d3 d4 * 256 + lane d5 d6) /\
  0 <= lane d1 d2 * 65536 + lane d3 d4 * 256 + lane d5 d6 < 2 ^ 24 /\
  darkenColor color percent =
    code "#" :: hex2 (clamp (lane d1 d2 - a)) ++ hex2 (clamp (lane d3 d4 - a))
             ++ hex2 (clamp (lane d5 d6 - a)).
Proof.
  intros Hds Hcolor Hamt Ha.
  assert (Hds' : Forall (fun c => isHexDigit c = true) [d1; d2; d3; d4; d5; d6])
    by (eapply Forall_impl; [exact Hds | intros c Hc; now rewrite <- isHex_code]).
  clear Hds. rename Hds' into Hds.
  assert (Hstrip : removeFirst (code "#") color = [d1; d2; d3; d4; d5; d6]).
  { destruct Hcolor as [-> | ->].
    - reflexivity.
    - now apply removeFirst_hash_hex. }
  pose proof (parseInt16_hex6 _ _ _ _ _ _ Hds) as Hparse.
  repeat match goal with
  | H : Forall _ (_ :: _) |- _ => apply Forall_cons in H; destruct H as [? H]
  end.
  pose proof (lane_range d1 d2 ltac:(assumption) ltac:(assumption)) as Hr.
  pose proof (lane_range d3 d4 ltac:(assumption) ltac:(assumption)) as Hg.
  pose proof (lane_range d5 d6 ltac:(assumption) ltac:(assumption)) as Hb.
  change (2 ^ 52) with 4503599627370496 in Ha.
  split; [now rewrite Hstrip | split].
  { change (2 ^ 24) with 16777216. lia. }
  unfold darkenColor. rewrite Hstrip, Hparse, Hamt.
  destruct (lanes_of_num _ _ _ Hr Hg Hb) as (-> & -> & ->).
  unfold sub.
  rewrite !Number_of_Z_small by (change (2 ^ 53) with 9007199254740992; lia).
  rewrite !clampLane_Int.
  pose proof (clamp_range (lane d1 d2 - a)).
  pose proof (clamp_range (lane d3 d4 - a)).
  pose proof (clamp_range (lane d5 d6 - a)).
  unfold mul, add.
  repeat (rewrite Number_of_Z_small by (change (2 ^ 53) with 9007199254740992; lia)).
  rewrite toString16_rgb by lia.
  reflexivity.
Qed.

End ColorFacts.

Import JS Config Spec.

(** [c2_55] is a binary64 number and the one nearest to 2.55: it is
    within half a unit in the last place, 2^-52, of 255/100. *)
Lemma c2_55_is_the_literal :
  valid_binary prec emax c2_55 = true
  /\ Z.abs (100 * 5742089524897382 - 255 * 2 ^ 51) <= 50.
Proof. split; [reflexivity | vm_compute; discriminate]. Qed.

(** The product [2.55 * percent], rounded, stays within a byte for every
    whole percentage of the documented range 0-100. *)
Lemma amt_of_percentages :
  forallb (fun p =>
             match Math_round (SFmul prec emax c2_55 (double_of_Z (Z.of_nat p))) with
             | Int a => (0 <=? a) && (a <=? 255)
             | _ => false
             end) (seq 0 101) = true.
Proof. vm_compute. reflexivity. Qed.

(** C1.  For a colour written with six hexadecimal digits, with or
    without the leading [#], [darkenColor] parses the digits to the
    24-bit integer whose byte lanes are the three digit pairs, subtracts
    [amt = Math.round(2.55 * percent)] from each lane on its own, clamps
    each result to [0, 255] and writes the three lanes back as six
    zero-padded lower-case hexadecimal digits after [#].  [percent] is
    any double whose rounded product [amt] is an integer below 2^52 in
    magnitude.  For ["#1e40af"] and 20 the amount is 51, the lanes 30, 64
    and 175 become 0 (clamped), 13 and 124, and the result is
    ["#000d7c"]. *)
Theorem darkenColor_lanes :
  (forall d1 d2 d3 d4 d5 d6 color percent a,
      Forall (fun c => isHex c = true) [d1; d2; d3; d4; d5; d6] ->
      color = code "#" :: [d1; d2; d3; d4; d5; d6] \/ color = [d1; d2; d3; d4; d5; d6] ->
      Math_round (SFmul prec emax c2_55 percent) = Int a ->
      Z.abs a < 2 ^ 52 ->
      parseInt16 (removeFirst (code "#") color)
        = Int (lane d1 d2 * 65536 + lane d3 d4 * 256 + lane d5 d6) /\
      0 <= lane d1 d2 * 65536 + lane d3 d4 * 256 + lane d5 d6 < 2 ^ 24 /\
      darkenColor color percent =
        code "#" :: hex2 (clamp (lane d1 d2 - a)) ++ hex2 (clamp (lane d3 d4 - a))
                 ++ hex2 (clamp (lane d5 d6 - a)))
  /\ Math_round (SFmul prec emax c2_55 (double_of_Z 20)) = Int 51
  /\ darkenColor (utf16 "#1e40af") (double_of_Z 20) = utf16 "#000d7c"
  /\ utf16 "#000d7c" =
       code "#" :: hex2 (clamp (30 - 51)) ++ hex2 (clamp (64 - 51)) ++ hex2 (clamp (175 - 51)).
Proof.
  split; [exact ColorFacts.darkenColor_general |].
  repeat split; vm_compute; reflexivity.
Qed.

Lemma darkenColor_lanes_witness :
  darkenColor (utf16 "#1e40af") (double_of_Z 20) =
    code "#" :: hex2 (clamp (lane (code "1") (code "e") - 51))
             ++ hex2 (clamp (lane (code "4") (code "0") - 51))
             ++ hex2 (clamp (lane (code "a") (code "f") - 51)).
Proof.
  apply (proj1 darkenColor_lanes (code "1") (code "e") (code "4") (code "0") (code "a") (code "f")
           (utf16 "#1e40af") (double_of_Z 20) 51).
  - repeat constructor.
  - left. reflexivity.
  - vm_compute. reflexivity.
  - reflexivity.
Defined.


(** ** The matcher decides the language of a regular expression *)

Module RegexFacts.
Import Regex.

Lemma lang_eps_inv s : lang Eps s -> s = [].
Proof. now inversion 1. Qed.

Lemma lang_void_inv s : ~ lang Void s.
Proof. inversion 1. Qed.

Lemma lang_cls_inv k s : lang (Cls k) s -> exists c, s = [c] /\ inClass k c = true.
Proof. inversion 1; subst; eauto. Qed.

Lemma lang_cat_inv r1 r2 s :
  lang (Cat r1 r2) s -> exists s1 s2, s = s1 ++ s2 /\ lang r1 s1 /\ lang r2 s2.
Proof. inversion 1; subst; eauto. Qed.

Lemma lang_alt_inv r1 r2 s : lang (Alt r1 r2) s -> lang r1 s \/ lang r2 s.
Proof. inversion 1; subst; auto. Qed.

(** A word of [Star r] starting with [c] begins with a non-empty word of [r]. *)
Lemma lang_star_cons_inv r s :
  lang (Star r) s ->
  forall c t, s = c :: t ->
  exists s1 s2, t = s1 ++ s2 /\ lang r (c :: s1) /\ lang (Star r) s2.
Proof.
  intros H. remember (Star r) as r' eqn:Hr.
  induction H as [| | | | | r0 | r0 s1 s2 H1 _ H2 IH2]; try discriminate Hr.
  - intros c t Hs. discriminate Hs.
  - injection Hr as ->. intros c t Hs.
    destruct s1 as [| c1 s1].
    + apply (IH2 eq_refl c t Hs).
    + simpl in Hs. injection Hs as -> <-. eauto.
Qed.

Lemma nullable_lang r : nullable r = true <-> lang r [].
Proof.
  split.
  - induction r as [| | k | r1 IH1 r2 IH2 | r1 IH1 r2 IH2 | r IH]; simpl; intros H;
      try discriminate.
    + constructor.
    + apply andb_true_iff in H as [H1 H2].
      change (@nil N) with (@nil N ++ []). constructor; auto.
    + apply orb_true_iff in H as [H | H]; [apply lang_alt_l | apply lang_alt_r]; auto.
    + constructor.
  - induction r as [| | k | r1 IH1 r2 IH2 | r1 IH1 r2 IH2 | r IH]; simpl; intros H.
    + now apply lang_void_inv in H.
    + reflexivity.
    + apply lang_cls_inv in H as (c & Hc & _). discriminate.
    + apply lang_cat_inv in H as (s1 & s2 & Hs & H1 & H2).
      symmetry in Hs. apply app_eq_nil in Hs as [-> ->].
      rewrite IH1, IH2; auto.
    + apply lang_alt_inv in H as [H | H]; [rewrite IH1 | rewrite IH2]; auto.
      apply orb_true_r.
    + reflexivity.
Qed.

Lemma deriv_lang c r : forall s, lang (deriv c r) s <-> lang r (c :: s).
Proof.
  induction r as [| | k | r1 IH1 r2 IH2 | r1 IH1 r2 IH2 | r IH]; intros s; simpl.
  - split; intros H; now apply lang_void_inv in H.
  - split; intros H; [now apply lang_void_inv in H | apply lang_eps_inv in H; discriminate].
  - destruct (inClass k c) eqn:Hk; split; intros H.
    + apply lang_eps_inv in H as ->. now constructor.
    + apply lang_cls_inv in H as (c' & Hs & _). injection Hs as _ ->. constructor.
    + now apply lang_void_inv in H.
    + apply lang_cls_inv in H as (c' & Hs & Hc'). injection Hs as -> _. congruence.
  - assert (Hcat : lang (Cat (deriv c r1) r2) s ->
                   lang (Cat r1 r2) (c :: s)).
    { intros H. apply lang_cat_inv in H as (s1 & s2 & -> & H1 & H2).
      apply IH1 in H1. change (c :: s1 ++ s2) with ((c :: s1) ++ s2). now constructor. }
    assert (Hinv : lang (Cat r1 r2) (c :: s) ->
                   lang (Cat (deriv c r1) r2) s \/ (lang r1 [] /\ lang r2 (c :: s))).
    { intros H. apply lang_cat_inv in H as (s1 & s2 & Hs & H1 & H2).
      destruct s1 as [| c1 s1].
      - simpl in Hs. subst s2. auto.
      - simpl in Hs. injection Hs as <- ->. left. constructor; [now apply IH1 | assumption]. }
    destruct (nullable r1) eqn:Hn.
    + split; intros H.
      * apply lang_alt_inv in H as [H | H]; [auto |].
        apply IH2 in H. apply nullable_lang in Hn.
        change (c :: s) with ([] ++ c :: s). now constructor.
      * apply Hinv in H as [H | [_ H]]; [now apply lang_alt_l |].
        apply lang_alt_r. now apply IH2.
    + split; [auto |]. intros H. apply Hinv in H as [H | [H _]]; [assumption |].
      apply nullable_lang in H. congruence.
  - split; intros H.
    + apply lang_alt_inv in H as [H | H]; [apply lang_alt_l, IH1 | apply lang_alt_r, IH2]; auto.
    + apply lang_alt_inv in H as [H | H]; [apply lang_alt_l, IH1 | apply lang_alt_r, IH2]; auto.
  - split; intros H.
    + apply lang_cat_inv in H as (s1 & s2 & -> & H1 & H2).
      apply IH in H1. change (c :: s1 ++ s2) with ((c :: s1) ++ s2). now constructor.
    + destruct (lang_star_cons_inv _ _ H c s eq_refl) as (s1 & s2 & -> & H1 & H2).
      constructor; [now apply IH | assumption].
Qed.

Theorem matches_lang r s : matches r s = true <-> lang r s.
Proof.
  revert r. induction s as [| c s IH]; intros r; simpl.
  - apply nullable_lang.
  - rewrite IH. apply deriv_lang.
Qed.

End RegexFacts.

(** ** What the validators accept *)

Module ValidatorFacts.
Import Regex RegexFacts Script.FormValidator.

Lemma lang_star_cls k s :
  lang (Star (Cls k)) s <-> Forall (fun c => inClass k c = true) s.
Proof.
  split.
  - intros H. remember (Star (Cls k)) as r eqn:Hr.
    induction H as [| | | | | r0 | r0 s1 s2 H1 _ H2 IH2]; try discriminate Hr.
    + constructor.
    + injection Hr as ->. apply lang_cls_inv in H1 as (c & -> & Hc).
      simpl. constructor; auto.
  - induction 1 as [| c s Hc _ IH]; [constructor |].
    change (c :: s) with ([c] ++ s). constructor; [now constructor | assumption].
Qed.

Lemma lang_plus_cls k s :
  lang (Plus (Cls k)) s <-> s <> [] /\ Forall (fun c => inClass k c = true) s.
Proof.
  unfold Plus. split.
  - intros H. apply lang_cat_inv in H as (s1 & s2 & -> & H1 & H2).
    apply lang_cls_inv in H1 as (c & -> & Hc). apply lang_star_cls in H2.
    split; [discriminate | constructor; auto].
  - intros [Hne H]. destruct H as [| c s Hc H]; [congruence |].
    change (c :: s) with ([c] ++ s). constructor; [now constructor | now apply lang_star_cls].
Qed.

Lemma lang_lit c s : lang (Lit c) s <-> s = [c].
Proof.
  unfold Lit. split.
  - intros H. apply lang_cls_inv in H as (d & -> & Hd). simpl in Hd.
    rewrite orb_false_r in Hd. apply N.eqb_eq in Hd. now subst.
  - intros ->. constructor. simpl. now rewrite N.eqb_refl.
Qed.

Lemma lang_opt r s : lang (Opt r) s <-> s = [] \/ lang r s.
Proof.
  unfold Opt. split.
  - intros H. apply lang_alt_inv in H as [H | H]; [auto |].
    apply lang_eps_inv in H. auto.
  - intros [-> | H]; [apply lang_alt_r; constructor | now apply lang_alt_l].
Qed.

Lemma lang_upto_cls k n s :
  lang (UpTo n (Cls k)) s <->
  (length s <= n)%nat /\ Forall (fun c => inClass k c = true) s.
Proof.
  revert s. induction n as [| n IH]; intros s; simpl.
  - split.
    + intros H. apply lang_eps_inv in H as ->. split; [simpl; lia | constructor].
    + intros [Hl _]. destruct s; [constructor | simpl in Hl; lia].
  - rewrite lang_opt. split.
    + intros [-> | H]; [split; [simpl; lia | constructor] |].
      apply lang_cat_inv in H as (s1 & s2 & -> & H1 & H2).
      apply lang_cls_inv in H1 as (c & -> & Hc). apply IH in H2 as [Hl Hf].
      split; [simpl; lia | constructor; auto].
    + intros [Hl Hf]. destruct Hf as [| c s Hc Hf]; [auto |]. right.
      change (c :: s) with ([c] ++ s). constructor; [now constructor |].
      apply IH. split; [simpl in Hl; lia | assumption].
Qed.

Lemma inClass_notSpaceNorAt c :
  inClass notSpaceNorAt c = true <-> isWhiteSpace c = false /\ c <> code "@".
Proof.
  unfold notSpaceNorAt. simpl. rewrite orb_false_r, negb_true_iff, orb_false_iff.
  now rewrite N.eqb_neq.
Qed.

Lemma occurrences_app c s t :
  occurrences c (s ++ t) = (occurrences c s + occurrences c t)%nat.
Proof. unfold occurrences. now rewrite List.filter_app, length_app. Qed.

Lemma occurrences_cons c d s :
  occurrences c (d :: s) = ((if (c =? d)%N then 1 else 0) + occurrences c s)%nat.
Proof. unfold occurrences. simpl. now destruct (c =? d)%N. Qed.

Lemma occurrences_zero c s :
  occurrences c s = 0%nat <-> Forall (fun d => d <> c) s.
Proof.
  induction s as [| d s IH].
  - split; [constructor | reflexivity].
  - rewrite occurrences_cons. destruct (N.eqb_spec c d) as [-> | Hne].
    + split; [discriminate |]. intros H. apply Forall_cons in H as [H _]. congruence.
    + simpl. rewrite IH. split.
      * intros H. constructor; [congruence | assumption].
      * intros H. now apply Forall_cons in H as [_ H].
Qed.

(** Words of [[^\s@]+]. *)
Lemma lang_part s :
  lang (Plus (Cls notSpaceNorAt)) s <->
  s <> [] /\ spaceFree s /\ occurrences (code "@") s = 0%nat.
Proof.
  rewrite lang_plus_cls, occurrences_zero. unfold spaceFree.
  split.
  - intros [Hne H]. split; [assumption |].
    split; eapply Forall_impl; try exact H; intros c Hc; now apply inClass_notSpaceNorAt in Hc.
  - intros (Hne & Hs & Ha). split; [assumption |].
    rewrite Forall_forall in *. intros c Hc. apply inClass_notSpaceNorAt. split; auto.
Qed.

Theorem validateEmail_shape s : validateEmail s = true <-> emailShape s.
Proof.
  unfold validateEmail, test. rewrite matches_lang. unfold emailRegex, emailShape. split.
  - intros H.
    apply lang_cat_inv in H as (l & s1 & -> & Hl & H).
    apply lang_cat_inv in H as (at_ & s2 & -> & Hat & H).
    apply lang_cat_inv in H as (a & s3 & -> & Ha & H).
    apply lang_cat_inv in H as (dot & b & -> & Hdot & Hb).
    apply lang_lit in Hat as ->. apply lang_lit in Hdot as ->.
    apply lang_part in Hl as (Hl1 & Hl2 & Hl3).
    apply lang_part in Ha as (Ha1 & Ha2 & Ha3).
    apply lang_part in Hb as (Hb1 & Hb2 & Hb3).
    split.
    + rewrite !occurrences_app, Hl3, Ha3, Hb3. reflexivity.
    + exists l, (a ++ [code "."] ++ b). repeat split; auto.
      exists a, b. repeat split; auto.
  - intros (Hocc & l & dom & -> & Hl1 & Hl2 & a & b & -> & Ha1 & Hb1 & Ha2 & Hb2).
    rewrite occurrences_app, occurrences_cons, occurrences_app, occurrences_cons in Hocc.
    rewrite N.eqb_refl in Hocc.
    change (code "@" =? code ".")%N with false in Hocc.
    change (l ++ code "@" :: a ++ code "." :: b)
      with (l ++ [code "@"] ++ a ++ [code "."] ++ b).
    cbn iota in Hocc.
    apply lang_cat; [apply lang_part; repeat split; auto; lia |].
    apply lang_cat; [now apply lang_lit |].
    apply lang_cat; [apply lang_part; repeat split; auto; lia |].
    apply lang_cat; [now apply lang_lit |].
    apply lang_part; repeat split; auto; lia.
Qed.


Lemma inClass_separators c : inClass separators c = isSeparator c.
Proof. unfold isSeparator. simpl. now rewrite orb_false_r, !orb_assoc. Qed.

Lemma removeAll_separators p : removeAll separators p = stripSeparators p.
Proof.
  unfold removeAll, stripSeparators. apply List.filter_ext.
  intros c. now rewrite inClass_separators.
Qed.

Theorem phoneRegex_shape s : test phoneRegex s = true <-> phoneShape s.
Proof.
  unfold test. rewrite matches_lang. unfold phoneRegex, phoneShape. split.
  - intros H.
    apply lang_cat_inv in H as (sign & s1 & -> & Hsign & H).
    apply lang_cat_inv in H as (d & rest & -> & Hd & Hrest).
    apply lang_opt in Hsign. apply lang_cls_inv in Hd as (c & -> & Hc).
    apply lang_upto_cls in Hrest as [Hlen Hrest].
    exists sign, c, rest. split; [reflexivity |]. split.
    + destruct Hsign as [-> | Hsign]; [auto | right].
      apply lang_cls_inv in Hsign as (p & -> & Hp). simpl in Hp.
      rewrite orb_false_r in Hp. apply N.eqb_eq in Hp. now subst.
    + split.
      * simpl in Hc. rewrite orb_false_r in Hc.
        apply andb_true_iff in Hc as [H1 H2].
        apply N.leb_le in H1, H2. auto.
      * split; [| assumption].
        eapply Forall_impl; [exact Hrest |]. intros x Hx. simpl in Hx.
        now rewrite orb_false_r in Hx.
  - intros (sign & d & rest & -> & Hsign & [Hd1 Hd2] & Hrest & Hlen).
    apply lang_cat.
    + apply lang_opt. destruct Hsign as [-> | ->]; [auto | right].
      apply lang_cls. reflexivity.
    + change (d :: rest) with ([d] ++ rest). apply lang_cat.
      * constructor. simpl. rewrite orb_false_r.
        apply andb_true_iff. split; now apply N.leb_le.
      * apply lang_upto_cls. split; [assumption |].
        eapply Forall_impl; [exact Hrest |]. intros x Hx. simpl.
        now rewrite orb_false_r.
Qed.

End ValidatorFacts.

Import Script.FormValidator.

(** C5.  [validateEmail] accepts exactly the strings with a single [@],
    a non-empty local part free of white space before it, and after it a
    domain made of two non-empty parts free of white space around a dot.
    So ["user@example.com"] is accepted, ["not-an-email"] is rejected, and
    ["a@b"] is rejected: its domain ["b"] has no dot. *)
Theorem validateEmail_accepts_exactly :
  (forall s, validateEmail s = true <-> emailShape s)
  /\ validateEmail (utf16 "user@example.com") = true
  /\ validateEmail (utf16 "not-an-email") = false
  /\ validateEmail (utf16 "a@b") = false
  /\ occurrences (code ".") (utf16 "b") = 0%nat.
Proof.
  split; [exact ValidatorFacts.validateEmail_shape |].
  repeat split; vm_compute; reflexivity.
Qed.

(** C6.  [validatePhone] removes every space (the white space matched
    by [\s]), dash and parenthesis character of its input, and accepts
    exactly when what is left is an optional [+], a digit 1-9 and then at
    most 15 digits.  ["(855) 886-8324"] is stripped to ["8558868324"] and
    accepted; ["abc"] is rejected. *)
Theorem validatePhone_accepts_exactly :
  (forall p, validatePhone p = true <-> phoneShape (stripSeparators p))
  /\ stripSeparators (utf16 "(855) 886-8324") = utf16 "8558868324"
  /\ validatePhone (utf16 "(855) 886-8324") = true
  /\ validatePhone (utf16 "abc") = false.
Proof.
  split.
  - intros p. unfold validatePhone.
    rewrite ValidatorFacts.removeAll_separators. apply ValidatorFacts.phoneRegex_shape.
  - repeat split; vm_compute; reflexivity.
Qed.

Import Page.

(** ** Frame reasoning for script functions *)

Section Frame.
Context {X : Type} (f : World -> X).

Lemma preserves_ret {A} (a : A) : preserves f (ret a).
Proof. intros w. reflexivity. Qed.

Lemma preserves_throw {A} e : preserves f (@throw A e).
Proof. intros w. reflexivity. Qed.

Lemma preserves_gets {A} (g : World -> A) : preserves f (gets g).
Proof. intros w. reflexivity. Qed.

Lemma preserves_bind {A B} (c : M A) (k : A -> M B) :
  preserves f c -> (forall a, preserves f (k a)) -> preserves f (bind c k).
Proof.
  intros Hc Hk w. unfold bind. specialize (Hc w).
  destruct (c w) as [[a | e] w']; simpl in *.
  - now rewrite Hk.
  - assumption.
Qed.

Lemma preserves_whenSome {A} (o : option A) (body : A -> M unit) :
  (forall a, preserves f (body a)) -> preserves f (whenSome o body).
Proof. intros H. destruct o; [apply H | apply preserves_ret]. Qed.

Lemma preserves_when (b : bool) (body : M unit) :
  preserves f body -> preserves f (when b body).
Proof. intros H. destruct b; [apply H | apply preserves_ret]. Qed.

Lemma preserves_forEach {A} (xs : list A) (body : A -> M unit) :
  (forall a, preserves f (body a)) -> preserves f (forEach xs body).
Proof.
  intros H. induction xs as [| x xs IH]; simpl.
  - apply preserves_ret.
  - apply preserves_bind; auto.
Qed.

(** Primitive updates of the parts of the state [f] does not look at. *)
Lemma preserves_onDocument g :
  (forall b a d c, f (mkWorld b a (g d) c) = f (mkWorld b a d c)) ->
  preserves f (onDocument g).
Proof. intros H [b a d c]. simpl. apply H. Qed.

Lemma preserves_onAppState g :
  (forall b a d c, f (mkWorld b (g a) d c) = f (mkWorld b a d c)) ->
  preserves f (onAppState g).
Proof. intros H [b a d c]. simpl. apply H. Qed.

Lemma preserves_console_emit l msg :
  (forall b a d c, f (mkWorld b a d (c ++ [(l, msg)])) = f (mkWorld b a d c)) ->
  preserves f (console_emit l msg).
Proof. intros H [b a d c]. simpl. apply H. Qed.

Lemma preserves_createElement tag :
  (forall b a d c, f (mkWorld b a (snd (Dom.createElement tag d)) c) = f (mkWorld b a d c)) ->
  preserves f (createElement tag).
Proof. intros H [b a d c]. simpl. apply H. Qed.
End Frame.

Ltac frame_step :=
  match goal with
  | |- forall _, _ => intro
  | |- preserves _ (bind _ _) => apply preserves_bind
  | |- preserves _ (ret _) => apply preserves_ret
  | |- preserves _ (throw _) => apply preserves_throw
  | |- preserves _ (gets _) => apply preserves_gets
  | |- preserves _ (whenSome _ _) => apply preserves_whenSome
  | |- preserves _ (when _ _) => apply preserves_when
  | |- preserves _ (forEach _ _) => apply preserves_forEach
  | |- preserves _ (onDocument _) => apply preserves_onDocument; reflexivity
  | |- preserves _ (onAppState _) => apply preserves_onAppState; reflexivity
  | |- preserves _ (console_emit _ _) => apply preserves_console_emit; reflexivity
  | |- preserves _ (createElement _) => apply preserves_createElement; reflexivity
  | |- preserves _ (match ?x with _ => _ end) => destruct x
  end.

Ltac frame := repeat frame_step.

(** ** The brand registry *)

Module ConfigFacts.
Import Config.

Lemma applyBrandConfiguration_keeps_brand : preserves currentBrand applyBrandConfiguration.
Proof.
  unfold applyBrandConfiguration, updateStructuredData, updateLabels, updateColors,
    updateContactFormLabels, updateReasonOptions, setSpanTextById, setTextBySelector,
    setTextById, setProperty, bySelector, byId, field, fieldName.
  frame.
Qed.

Lemma setBrand_registered_sets id c w :
  getOwn BRAND_CONFIGS id = Some c ->
  currentBrand (snd (setBrand id w)) = id.
Proof.
  intros H. unfold setBrand, getProperty. rewrite H. simpl isTruthy. cbv iota.
  unfold bind at 1. destruct w as [b a d k]. simpl.
  destruct (applyBrandConfiguration _) as [o w'] eqn:E.
  change w' with (snd (o, w')). rewrite <- E.
  destruct o; simpl; rewrite applyBrandConfiguration_keeps_brand; reflexivity.
Qed.


(** An id that is found neither in the registry nor on the prototype
    chain only produces the warning. *)
Lemma setBrand_unknown_warns id w :
  getProperty BRAND_CONFIGS id = None ->
  setBrand id w =
    (Return tt,
     mkWorld (currentBrand w) (appState w) (document w)
       (console w ++ [(WarnLevel, "Brand configuration '" +:+ id +:+ "' not found. Using default.")])).
Proof. intros H. unfold setBrand. rewrite H. reflexivity. Qed.

(** [getCurrentBrandConfig] never returns [undefined]. *)
Lemma getCurrentBrandConfig_defined w : getCurrentBrandConfig w <> None.
Proof.
  unfold getCurrentBrandConfig.
  destruct (getProperty BRAND_CONFIGS (currentBrand w)); discriminate.
Qed.

End ConfigFacts.

Import Config.

(** C3.  The registry holds the ids ["greenheck"] and ["neutral"], and
    for every id registered in it, in every state of the page, after
    [setBrand(id)] the call [getCurrentBrandConfig()] returns the record
    stored under that id. *)
Theorem setBrand_then_getCurrentBrandConfig :
  keys BRAND_CONFIGS = ["greenheck"; "neutral"] /\
  forall id c w,
    getOwn BRAND_CONFIGS id = Some c ->
    getCurrentBrandConfig (snd (setBrand id w)) = Some (Own c).
Proof.
  split; [reflexivity |].
  intros id c w H. unfold getCurrentBrandConfig.
  rewrite (ConfigFacts.setBrand_registered_sets id c w H).
  unfold getProperty. now rewrite H.
Qed.

Lemma setBrand_then_getCurrentBrandConfig_witness :
  getCurrentBrandConfig (snd (setBrand "neutral" Examples.page)) = Some (Own neutral).
Proof.
  apply (proj2 setBrand_then_getCurrentBrandConfig "neutral" neutral Examples.page).
  reflexivity.
Defined.

(** C4, on the sample page.  ["toString"] is not an id of the registry,
    yet [setBrand("toString")] does not leave the brand unchanged: the
    lookup [BRAND_CONFIGS["toString"]] finds the method inherited from
    [Object.prototype], so [currentBrand] becomes ["toString"], rendering
    throws a [TypeError], no warning is logged, and
    [getCurrentBrandConfig()], which returned the greenheck record before
    the call, returns the inherited method after it. *)
Theorem setBrand_inherited_key_switches_brand :
  getOwn BRAND_CONFIGS "toString" = None /\
  ~ In "toString" (keys BRAND_CONFIGS) /\
  getCurrentBrandConfig Examples.page = Some (Own greenheck) /\
  fst (setBrand "toString" Examples.page)
    = Throw (TypeError "Cannot read properties of undefined (reading 'loginLabel')") /\
  currentBrand (snd (setBrand "toString" Examples.page)) = "toString" /\
  getCurrentBrandConfig (snd (setBrand "toString" Examples.page))
    = Some (Inherited "toString") /\
  console (snd (setBrand "toString" Examples.page)) = [].
Proof.
  split; [reflexivity |]. split.
  - simpl. intros [H | [H | []]]; discriminate.
  - repeat split; vm_compute; reflexivity.
Qed.

(** C10, in the state reached by [setBrand("toString")] on the sample
    page.  [currentBrand] is ["toString"], which is not a key of the
    registry, yet [getCurrentBrandConfig()] does not fall back to the
    greenheck record: it returns the method inherited from
    [Object.prototype]. *)
Theorem getCurrentBrandConfig_inherited_key_no_fallback :
  let w := mkWorld "toString" Script.initialAppState Examples.pageDocument [] in
  ~ In (currentBrand w) (keys BRAND_CONFIGS) /\
  getCurrentBrandConfig w = Some (Inherited "toString") /\
  getCurrentBrandConfig w <> Some (Own greenheck) /\
  currentBrand (snd (setBrand "toString" Examples.page)) = currentBrand w.
Proof.
  simpl. split.
  - intros [H | [H | []]]; discriminate.
  - repeat split; try discriminate; vm_compute; reflexivity.
Qed.

(** ** Stepping through the primitives *)

Lemma bind_gets {A B} (g : World -> A) (k : A -> M B) w :
  bind (gets g) k w = k (g w) w.
Proof. reflexivity. Qed.

Lemma bind_onAppState {B} g (k : unit -> M B) w :
  bind (onAppState g) k w
  = k tt (mkWorld (currentBrand w) (g (appState w)) (document w) (console w)).
Proof. reflexivity. Qed.

Lemma bind_onDocument {B} g (k : unit -> M B) w :
  bind (onDocument g) k w
  = k tt (mkWorld (currentBrand w) (appState w) (g (document w)) (console w)).
Proof. reflexivity. Qed.

Lemma bind_assoc {A B C} (c : M A) (k1 : A -> M B) (k2 : B -> M C) w :
  bind (bind c k1) k2 w = bind c (fun a => bind (k1 a) k2) w.
Proof. unfold bind. destruct (c w) as [[a | e] w']; reflexivity. Qed.

Lemma bind_ret {A B} (a : A) (k : A -> M B) w : bind (ret a) k w = k a w.
Proof. reflexivity. Qed.

(** ** The modal manager *)

Module ModalFacts.
Import Script Script.AccessibilityUtils Script.ModalManager.

Lemma announce_keeps_capture msg : preserves captured (announceToScreenReader msg).
Proof. unfold announceToScreenReader. frame. Qed.

Lemma openModal_captures id modal w :
  Dom.getElementById (document w) id = Some modal ->
  captured (snd (openModal id w)) = Dom.activeElement (document w).
Proof.
  intros H. unfold openModal.
  rewrite bind_gets, H, bind_gets, bind_onAppState.
  match goal with
  | |- captured (snd (?k ?w1)) = _ =>
      assert (Hk : preserves captured k);
      [| rewrite Hk; reflexivity]
  end.
  unfold setFocusManagement, trapFocus, announceToScreenReader. frame.
Qed.

Lemma closeModal_clears id modal w :
  Dom.getElementById (document w) id = Some modal ->
  captured (snd (closeModal id w)) = None.
Proof.
  intros H. unfold closeModal.
  rewrite bind_gets, H, !bind_onDocument, bind_gets.
  cbn [appState].
  destruct (currentFocusedElement (appState w)) as [e |] eqn:Hc; cbn [whenSome].
  - rewrite bind_assoc, bind_onDocument, bind_onAppState.
    match goal with
    | |- captured (snd (?k ?w1)) = _ =>
        assert (Hk : preserves captured k);
        [| rewrite Hk; reflexivity]
    end.
    unfold announceToScreenReader. frame.
  - rewrite bind_ret.
    match goal with
    | |- captured (snd (?k ?w1)) = _ =>
        assert (Hk : preserves captured k);
        [| rewrite Hk; unfold captured; cbn [appState]; exact Hc]
    end.
    unfold announceToScreenReader. frame.
Qed.

Lemma closeAllModals_keeps_capture : preserves captured closeAllModals.
Proof. unfold closeAllModals. frame. Qed.

End ModalFacts.

Import Spec Script.ModalManager.

(** C2 as stated fails on the empty message: its length 0 is at most
    2000, but [validateMessageLength] returns the empty string for it, which
    is not [true] and not even truthy. *)
Lemma validateMessageLength_empty_not_true :
  ~ (validateMessageLength [] defaultMaxLength = VBool true
     <-> (length (@nil N) <= 2000)%nat)
  /\ validateMessageLength [] defaultMaxLength = VString []
  /\ truthy (validateMessageLength [] defaultMaxLength) = false.
Proof.
  split; [| split; reflexivity].
  intros [_ H]. specialize (H (Nat.le_0_l _)). discriminate H.
Qed.

(** C2, amended.  For every non-empty string [m],
    [validateMessageLength(m)] with the default cap returns the boolean
    [m.length <= 2000]; hence it returns [true] exactly for the lengths 1
    to 2000, [true] for a message of exactly 2000 characters and [false]
    for one of 2001; for the empty message it returns the empty string. *)
Theorem validateMessageLength_cap :
  (forall m, m <> [] ->
     validateMessageLength m defaultMaxLength = VBool (length m <=? 2000)%nat)
  /\ (forall m, validateMessageLength m defaultMaxLength = VBool true
                <-> (1 <= length m <= 2000)%nat)
  /\ (forall m, length m = 2000%nat -> validateMessageLength m defaultMaxLength = VBool true)
  /\ (forall m, length m = 2001%nat -> validateMessageLength m defaultMaxLength = VBool false)
  /\ validateMessageLength [] defaultMaxLength = VString [].
Proof.
  assert (H : forall m, m <> [] ->
     validateMessageLength m defaultMaxLength = VBool (length m <=? 2000)%nat).
  { intros [| c m] Hm; [congruence | reflexivity]. }
  split; [exact H |]. split; [| split; [| split]].
  - intros [| c m].
    + split; [discriminate | simpl; lia].
    + rewrite H by discriminate. split.
      * intros E. injection E as E. apply Nat.leb_le in E. simpl in *. lia.
      * intros [_ E]. apply Nat.leb_le in E. now rewrite E.
  - intros m Hl. rewrite H by (intros ->; discriminate). now rewrite Hl.
  - intros m Hl. rewrite H by (intros ->; discriminate). now rewrite Hl.
  - reflexivity.
Qed.

Lemma validateMessageLength_cap_witness :
  validateMessageLength (List.repeat (code "a") 2000) defaultMaxLength = VBool true
  /\ validateMessageLength (List.repeat (code "a") 2001) defaultMaxLength = VBool false.
Proof.
  split.
  - apply (proj1 (proj2 (proj2 validateMessageLength_cap))). vm_compute. reflexivity.
  - apply (proj1 (proj2 (proj2 (proj2 validateMessageLength_cap)))). vm_compute. reflexivity.
Defined.

(** C8.  When the document has no element with the given id,
    [openModal(id)] and [closeModal(id)] return normally and leave the
    whole state as it was: [AppState], the document, the console and the
    current brand. *)
Theorem modal_absent_noop :
  forall modalId w,
    Dom.getElementById (document w) modalId = None ->
    openModal modalId w = (Return tt, w) /\ closeModal modalId w = (Return tt, w).
Proof.
  intros modalId w H. unfold openModal, closeModal.
  rewrite !bind_gets, H. split; reflexivity.
Qed.

Lemma modal_absent_noop_witness :
  openModal "settings-modal" Examples.page = (Return tt, Examples.page)
  /\ closeModal "settings-modal" Examples.page = (Return tt, Examples.page).
Proof.
  apply (modal_absent_noop "settings-modal" Examples.page). vm_compute. reflexivity.
Defined.

(** C9 as stated fails for [closeAllModals]: on the sample page, after
    [openModal("contact-modal")] has captured the help link,
    [closeAllModals()] leaves the capture in place. *)
Lemma closeAllModals_leaves_capture :
  Dom.getElementById (document Examples.page) "contact-modal" = Some 4%nat
  /\ captured (snd (openModal "contact-modal" Examples.page)) = Some 3%nat
  /\ captured (snd (closeAllModals (snd (openModal "contact-modal" Examples.page))))
     <> None.
Proof. repeat split; vm_compute; congruence. Qed.

(** C9, amended.  Opening a modal that exists sets
    [AppState.currentFocusedElement] to the element that was active
    before the call; [closeModal] on a modal that exists leaves it empty;
    [closeAllModals] leaves it as it was. *)
Theorem focus_capture_set_and_cleared :
  (forall modalId modal w,
      Dom.getElementById (document w) modalId = Some modal ->
      captured (snd (openModal modalId w)) = Dom.activeElement (document w))
  /\ (forall modalId modal w,
      Dom.getElementById (document w) modalId = Some modal ->
      captured (snd (closeModal modalId w)) = None)
  /\ (forall w, captured (snd (closeAllModals w)) = captured w).
Proof.
  split; [exact ModalFacts.openModal_captures |].
  split; [exact ModalFacts.closeModal_clears | exact ModalFacts.closeAllModals_keeps_capture].
Qed.

Lemma focus_capture_set_and_cleared_witness :
  captured (snd (openModal "contact-modal" Examples.page)) = Some 3%nat
  /\ captured (snd (closeModal "contact-modal"
                      (snd (openModal "contact-modal" Examples.page)))) = None.
Proof.
  split.
  - apply (proj1 focus_capture_set_and_cleared "contact-modal" 4%nat Examples.page).
    vm_compute. reflexivity.
  - apply (proj1 (proj2 focus_capture_set_and_cleared) "contact-modal" 4%nat).
    vm_compute. reflexivity.
Defined.

(** ** Documents of the same shape *)

Module DomFacts.
Import Dom.

Lemma sameShape_refl ns : sameShape ns ns.
Proof. reflexivity. Qed.

Lemma sameShape_trans ns1 ns2 ns3 :
  sameShape ns1 ns2 -> sameShape ns2 ns3 -> sameShape ns1 ns3.
Proof. unfold sameShape. congruence. Qed.

Lemma sameShape_length ns ns' : sameShape ns ns' -> length ns = length ns'.
Proof.
  intros H. apply (f_equal (@length _)) in H. now rewrite !length_map in H.
Qed.

Lemma sameShape_lookup ns ns' h :
  sameShape ns ns' -> shape <$> ns !! h = shape <$> ns' !! h.
Proof.
  intros H. rewrite <- !list_lookup_fmap. unfold sameShape in H.
  change (map shape ns) with (shape <$> ns) in H.
  change (map shape ns') with (shape <$> ns') in H. now rewrite H.
Qed.

Lemma sameShape_ancestors ns ns' fuel h :
  sameShape ns ns' -> ancestors ns fuel h = ancestors ns' fuel h.
Proof.
  intros H. revert h. induction fuel as [| fuel IH]; intros h; simpl; [reflexivity |].
  pose proof (sameShape_lookup ns ns' h H) as Hh.
  destruct (ns !! h) as [e |], (ns' !! h) as [e' |]; simpl in Hh; try discriminate; auto.
  injection Hh as _ _ Hp. rewrite Hp.
  destruct (parentNode e'); [now rewrite IH | reflexivity].
Qed.

Lemma sameShape_isDescendant ns ns' a h :
  sameShape ns ns' -> isDescendant ns a h = isDescendant ns' a h.
Proof.
  intros H. unfold isDescendant.
  now rewrite (sameShape_length _ _ H), (sameShape_ancestors _ _ _ _ H).
Qed.

Lemma sameShape_findAll i ns ns' k :
  sameShape ns ns' ->
  findAll (fun _ e => isConnected e && String.eqb i (id e)) ns k
  = findAll (fun _ e => isConnected e && String.eqb i (id e)) ns' k.
Proof.
  revert ns' k. induction ns as [| e ns IH]; intros [| e' ns'] k H; try discriminate H.
  - reflexivity.
  - unfold sameShape in H. simpl in H. injection H as Hid Hc _ H.
    simpl. rewrite Hid, Hc, (IH ns' (S k) H). reflexivity.
Qed.

Lemma sameShape_getElementById d d' i :
  sameShape (nodes d) (nodes d') -> getElementById d i = getElementById d' i.
Proof.
  intros H. unfold getElementById. now rewrite (sameShape_findAll i _ _ 0 H).
Qed.

Lemma forallb_pointwise {A} (f g : A -> bool) l :
  (forall x, f x = g x) -> forallb f l = forallb g l.
Proof. intros H. induction l as [| x l IH]; simpl; [reflexivity | now rewrite H, IH]. Qed.

Lemma sameShape_childless d d' h :
  sameShape (nodes d) (nodes d') -> childless d h = childless d' h.
Proof.
  intros H. unfold childless. rewrite (sameShape_length _ _ H).
  apply forallb_pointwise. intros k. now rewrite (sameShape_isDescendant _ _ h k H).
Qed.

Lemma sameShape_alter g h ns :
  (forall e, shape (g e) = shape e) -> sameShape ns (alter g h ns).
Proof.
  intros Hg. unfold sameShape.
  change (map shape (alter g h ns)) with (shape <$> alter g h ns).
  rewrite (list_fmap_alter shape g (fun x => x)) by (apply Forall_forall; intros x _; apply Hg).
  now rewrite list_alter_id.
Qed.

Lemma childless_spec d h :
  childless d h = true -> forall k, isDescendant (nodes d) h k = false.
Proof.
  unfold childless. intros H k. rewrite forallb_forall in H.
  destruct (Nat.lt_ge_cases k (length (nodes d))) as [Hk | Hk].
  - apply negb_true_iff, H, in_seq. lia.
  - unfold isDescendant. destruct (length (nodes d)) eqn:E; [reflexivity |].
    simpl. rewrite lookup_ge_None_2 by lia. reflexivity.
Qed.

Lemma detach_childless d h :
  childless d h = true -> detachDescendants (nodes d) h = nodes d.
Proof.
  intros H. unfold detachDescendants. apply list_eq. intros k.
  rewrite list_lookup_imap, (childless_spec d h H k).
  now destruct (nodes d !! k).
Qed.

Lemma setTextContent_childless d h t :
  childless d h = true -> setTextContent h t d = updateNode h (setText t) d.
Proof.
  intros H. unfold setTextContent, updateNode. rewrite (detach_childless d h H).
  pose proof (childless_spec d h H) as Hd.
  destruct d as [ns hd bd [a |] ti rs bo ls ts]; simpl in *; [| reflexivity].
  unfold withActive, withNodes; simpl.
  now rewrite (Hd a).
Qed.

Lemma findAll_In (p : nat -> Element -> bool) ns k h :
  In h (findAll p ns k) ->
  exists e, ns !! (h - k)%nat = Some e /\ p h e = true /\ (k <= h)%nat.
Proof.
  revert k. induction ns as [| e ns IH]; intros k; simpl; [tauto |].
  intros H. assert (Hrec : In h (findAll p ns (S k)) ->
    exists e0, (e :: ns) !! (h - k)%nat = Some e0 /\ p h e0 = true /\ (k <= h)%nat).
  { intros H'. apply IH in H' as (e0 & He0 & Hp & Hk). exists e0.
    replace (h - k)%nat with (S (h - S k)) by lia. simpl. auto with lia. }
  destruct (p k e) eqn:Hp; [| auto].
  destruct H as [<- | H]; [| auto].
  exists e. rewrite Nat.sub_diag. auto.
Qed.

Lemma getElementById_id d i h :
  getElementById d i = Some h ->
  exists e, nodes d !! h = Some e /\ id e = i.
Proof.
  unfold getElementById. destruct (String.eqb i ""); [discriminate |].
  intros H.
  destruct (findAll _ (nodes d) 0) as [| h' l] eqn:E; [discriminate |].
  simpl in H. injection H as ->.
  assert (Hin : In h (findAll (fun _ e => isConnected e && String.eqb i (id e)) (nodes d) 0))
    by (rewrite E; now left).
  apply findAll_In in Hin as (e & He & Hp & _).
  rewrite Nat.sub_0_r in He. exists e. split; [assumption |].
  apply andb_true_iff in Hp as [_ Hp]. apply String.eqb_eq in Hp. now subst.
Qed.

Lemma getTextContent_updateNode_keep d h g k :
  (forall e, textContent (g e) = textContent e) ->
  getTextContent (updateNode h g d) k = getTextContent d k.
Proof.
  intros Hg. unfold getTextContent, updateNode. simpl.
  destruct (decide (h = k)) as [-> | Hne].
  - rewrite list_lookup_alter_eq. destruct (nodes d !! k); simpl; auto.
  - now rewrite list_lookup_alter_ne.
Qed.

Lemma getTextContent_setText d h t e :
  nodes d !! h = Some e ->
  getTextContent (updateNode h (setText t) d) h = t.
Proof.
  intros H. unfold getTextContent, updateNode. simpl.
  now rewrite list_lookup_alter_eq, H.
Qed.

Lemma getTextContent_setText_ne d h t k :
  h <> k -> getTextContent (updateNode h (setText t) d) k = getTextContent d k.
Proof.
  intros H. unfold getTextContent, updateNode. simpl.
  now rewrite list_lookup_alter_ne.
Qed.

End DomFacts.

(** ** Field validation *)

Module FormFacts.
Import Dom DomFacts Script.FormHandler.

Lemma shape_classAdd c e : shape (classAdd c e) = shape e.
Proof. unfold classAdd. now destruct (hasClass c e). Qed.

Lemma text_classAdd c e : textContent (classAdd c e) = textContent e.
Proof. unfold classAdd. now destruct (hasClass c e). Qed.

Lemma shape_classRemove c e : shape (classRemove c e) = shape e.
Proof. reflexivity. Qed.

Lemma text_classRemove c e : textContent (classRemove c e) = textContent e.
Proof. reflexivity. Qed.

Lemma shape_setText t e : shape (setText t e) = shape e.
Proof. reflexivity. Qed.

Lemma errorUpdate_effect f g1 g2 t w :
  (forall e, shape (g1 e) = shape e) -> (forall e, textContent (g1 e) = textContent e) ->
  (forall e, shape (g2 e) = shape e) -> (forall e, textContent (g2 e) = textContent e) ->
  (forall he, getElementById (document w) (errorId f) = Some he ->
              childless (document w) he = true) ->
  exists d',
    errorUpdate f g1 g2 t w
      = (Return tt, mkWorld (currentBrand w) (appState w) d' (console w)) /\
    sameShape (nodes (document w)) (nodes d') /\
    (forall he, getElementById (document w) (errorId f) = Some he ->
                getTextContent d' he = t) /\
    (forall k, getElementById (document w) (errorId f) <> Some k ->
               getTextContent d' k = getTextContent (document w) k).
Proof.
  intros Hs1 Ht1 Hs2 Ht2 Hleaf. destruct w as [b a d c]. cbn [document] in *.
  unfold errorUpdate. rewrite !bind_gets. cbn [document]. fold (errorId f).
  set (d1 := match getElementById d f with
             | Some hf => updateNode hf g1 d
             | None => d
             end).
  assert (Hsh1 : sameShape (nodes d) (nodes d1)).
  { unfold d1. destruct (getElementById d f); [| apply sameShape_refl].
    now apply sameShape_alter. }
  assert (Htx1 : forall k, getTextContent d1 k = getTextContent d k).
  { intros k. unfold d1. destruct (getElementById d f); [| reflexivity].
    now apply getTextContent_updateNode_keep. }
  assert (Hstep1 : forall B (k : unit -> M B),
    bind (whenSome (getElementById d f) (fun h => onDocument (updateNode h g1))) k
         (mkWorld b a d c)
    = k tt (mkWorld b a d1 c)).
  { intros B k. unfold d1. destruct (getElementById d f); reflexivity. }
  rewrite Hstep1. clear Hstep1.
  destruct (getElementById d (errorId f)) as [he |] eqn:Hhe; cbn [whenSome].
  - rewrite bind_onDocument. cbn [onDocument currentBrand appState document console].
    assert (Hc1 : childless d1 he = true).
    { rewrite <- (sameShape_childless d d1 he Hsh1). now apply Hleaf. }
    rewrite (setTextContent_childless d1 he t Hc1).
    eexists. split; [reflexivity |]. cbn [document]. split; [| split].
    + eapply sameShape_trans; [exact Hsh1 |].
      eapply sameShape_trans; [apply sameShape_alter, shape_setText |].
      now apply sameShape_alter.
    + intros he' E. injection E as <-.
      rewrite getTextContent_updateNode_keep by assumption.
      destruct (getElementById_id d _ he Hhe) as (e & He & _).
      assert (Hl : shape <$> nodes d1 !! he = Some (shape e)).
      { rewrite <- (sameShape_lookup _ _ he Hsh1), He. reflexivity. }
      destruct (nodes d1 !! he) as [e1 |] eqn:E1; [| discriminate].
      now apply (getTextContent_setText d1 he t e1).
    + intros k Hk.
      rewrite getTextContent_updateNode_keep by assumption.
      rewrite getTextContent_setText_ne by congruence.
      apply Htx1.
  - exists d1. split; [reflexivity |]. split; [assumption |]. split.
    + intros he E. discriminate.
    + intros k _. apply Htx1.
Qed.

Lemma firstFailure_passes rules v :
  firstFailure rules v = None <-> passes rules v = true.
Proof.
  induction rules as [| r rules IH]; simpl; [tauto |].
  unfold not_. destruct (truthy (validator r v)); simpl; [assumption |].
  split; discriminate.
Qed.

Lemma firstFailure_reported rules v :
  reported rules v = match firstFailure rules v with Some m => m | None => "" end.
Proof.
  unfold reported. induction rules as [| r rules IH]; simpl; [reflexivity |].
  unfold not_. destruct (truthy (validator r v)); simpl; [assumption | reflexivity].
Qed.

Lemma validateField_effect f v rules w :
  (forall he, getElementById (document w) (errorId f) = Some he ->
              childless (document w) he = true) ->
  exists d',
    validateField f v rules w
      = (Return (passes rules v), mkWorld (currentBrand w) (appState w) d' (console w)) /\
    sameShape (nodes (document w)) (nodes d') /\
    (forall he, getElementById (document w) (errorId f) = Some he ->
                getTextContent d' he = reported rules v) /\
    (forall k, getElementById (document w) (errorId f) <> Some k ->
               getTextContent d' k = getTextContent (document w) k).
Proof.
  intros Hleaf. unfold validateField. rewrite firstFailure_reported.
  pose proof (firstFailure_passes rules v) as Hp.
  destruct (firstFailure rules v) as [m |].
  - destruct (errorUpdate_effect f (classAdd "error") (classAdd "show") m w
                (shape_classAdd _) (text_classAdd _) (shape_classAdd _) (text_classAdd _) Hleaf)
      as (d' & Hrun & Hrest).
    exists d'. split; [| exact Hrest].
    change (showError f m) with (errorUpdate f (classAdd "error") (classAdd "show") m).
    unfold bind. rewrite Hrun. unfold ret.
    destruct (passes rules v); [| reflexivity].
    destruct Hp as [_ Hp]. discriminate (Hp eq_refl).
  - destruct (errorUpdate_effect f (classRemove "error") (classRemove "show") "" w
                (shape_classRemove _) (text_classRemove _) (shape_classRemove _)
                (text_classRemove _) Hleaf)
      as (d' & Hrun & Hrest).
    exists d'. split; [| exact Hrest].
    change (clearError f) with (errorUpdate f (classRemove "error") (classRemove "show") "").
    unfold bind. rewrite Hrun. unfold ret.
    destruct Hp as [Hp _]. now rewrite (Hp eq_refl).
Qed.


(** [showError] and [clearError] never throw, so [validateField] always
    returns, and returns whether the value passes. *)
Lemma errorUpdate_returns f g1 g2 t w : fst (errorUpdate f g1 g2 t w) = Return tt.
Proof.
  unfold errorUpdate. rewrite !bind_gets.
  destruct (getElementById (document w) f), (getElementById (document w) (f +:+ "-error"));
    reflexivity.
Qed.

Lemma validateField_returns f v rules w :
  fst (validateField f v rules w) = Return (passes rules v).
Proof.
  unfold validateField. pose proof (firstFailure_passes rules v) as Hp.
  destruct (firstFailure rules v) as [m |].
  - change (showError f m) with (errorUpdate f (classAdd "error") (classAdd "show") m).
    pose proof (errorUpdate_returns f (classAdd "error") (classAdd "show") m w) as Hr.
    unfold bind. destruct (errorUpdate _ _ _ _ w) as [[[] | e] w']; [| discriminate Hr].
    simpl. destruct (passes rules v); [| reflexivity].
    destruct Hp as [_ Hp]. discriminate (Hp eq_refl).
  - change (clearError f) with (errorUpdate f (classRemove "error") (classRemove "show") "").
    pose proof (errorUpdate_returns f (classRemove "error") (classRemove "show") "" w) as Hr.
    unfold bind. destruct (errorUpdate _ _ _ _ w) as [[[] | e] w']; [| discriminate Hr].
    simpl. destruct Hp as [Hp _]. now rewrite (Hp eq_refl).
Qed.

Lemma validateContactForm_returns fd w :
  fst (validateContactForm fd w)
  = Return (passes requiredEmailRules (email fd) && passes nameRules (name fd)
            && passes phoneRules (phone fd) && passes reasonRules (reason fd)
            && passes messageRules (messageText fd)).
Proof.
  unfold validateContactForm, bind.
  repeat match goal with
  | |- context [validateField ?f ?v ?r ?w0] =>
      let H := fresh "H" in
      pose proof (validateField_returns f v r w0) as H;
      destruct (validateField f v r w0) as [[? | ?] ?];
      cbn [fst] in H; [injection H as -> | discriminate H]
  end.
  reflexivity.
Qed.

Lemma validateAll_effect fields : forall w,
  NoDup (map (fun x => errorId (fst (fst x))) fields) ->
  (forall x, In x fields ->
     forall he, getElementById (document w) (errorId (fst (fst x))) = Some he ->
                childless (document w) he = true) ->
  exists d',
    validateAll fields w
      = (Return (map (fun x => passes (snd x) (snd (fst x))) fields),
         mkWorld (currentBrand w) (appState w) d' (console w)) /\
    sameShape (nodes (document w)) (nodes d') /\
    (forall f v rules, In (f, v, rules) fields ->
       forall he, getElementById (document w) (errorId f) = Some he ->
                  getTextContent d' he = reported rules v) /\
    (forall k,
       (forall x, In x fields ->
                  getElementById (document w) (errorId (fst (fst x))) <> Some k) ->
       getTextContent d' k = getTextContent (document w) k).
Proof.
  induction fields as [| [[f v] rules] rest IH]; intros w Hnd Hleaf.
  - exists (document w). destruct w. repeat split; auto. intros ? ? ? [].
  - apply NoDup_cons in Hnd as [Hnotin Hnd]. cbn [fst snd map] in *.
    destruct (validateField_effect f v rules w) as (d1 & Hrun1 & Hsh1 & Hhit1 & Hframe1).
    { intros he. apply (Hleaf (f, v, rules)). now left. }
    set (w1 := mkWorld (currentBrand w) (appState w) d1 (console w)).
    destruct (IH w1 Hnd) as (d' & Hrun & Hsh & Hhit & Hframe).
    { intros x Hx he. cbn [document w1].
      rewrite <- (sameShape_getElementById (document w) d1 _ Hsh1).
      rewrite <- (sameShape_childless (document w) d1 he Hsh1).
      apply (Hleaf x). now right. }
    cbn [document w1 currentBrand appState console] in *.
    exists d'. split; [| split; [| split]].
    + cbn [validateAll]. unfold bind at 1. rewrite Hrun1. fold w1.
      unfold bind at 1. rewrite Hrun. reflexivity.
    + eapply sameShape_trans; eassumption.
    + intros f' v' rules' [E | Hin] he Hhe.
      * injection E as <- <- <-.
        rewrite Hframe; [now apply Hhit1 |].
        intros x Hx Hx'.
        rewrite <- (sameShape_getElementById (document w) d1 _ Hsh1) in Hx'.
        destruct (getElementById_id _ _ _ Hhe) as (e & He & Hid).
        destruct (getElementById_id _ _ _ Hx') as (e' & He' & Hid').
        rewrite He in He'. injection He' as <-.
        apply Hnotin. apply list_elem_of_In. rewrite <- Hid, Hid'.
        apply (in_map (fun x => errorId (fst (fst x))) rest x Hx).
      * apply (Hhit f' v' rules' Hin).
        now rewrite <- (sameShape_getElementById (document w) d1 _ Hsh1).
    + intros k Hk. rewrite Hframe.
      * apply Hframe1. apply (Hk (f, v, rules)). now left.
      * intros x Hx. rewrite <- (sameShape_getElementById (document w) d1 _ Hsh1).
        apply Hk. now right.
Qed.

Lemma validateContactForm_validateAll fd w :
  validateContactForm fd w
  = bind (validateAll (contactFields fd)) (fun bs => ret (forallb (fun b => b) bs)) w.
Proof.
  unfold validateContactForm, contactFields, validateAll, bind, ret.
  repeat match goal with
  | |- context [validateField ?f ?v ?r ?w0] =>
      destruct (validateField f v r w0) as [[? | ?] ?]
  end; try reflexivity.
  simpl. repeat match goal with b : bool |- _ => destruct b end; reflexivity.
Qed.

Lemma errorElementsChildless_spec d ids f he :
  errorElementsChildless d ids = true -> In f ids ->
  getElementById d (errorId f) = Some he -> childless d he = true.
Proof.
  unfold errorElementsChildless. rewrite forallb_forall. intros H Hin Hhe.
  specialize (H f Hin). now rewrite Hhe in H.
Qed.

End FormFacts.

Import Script.FormHandler.

(** [validateRequired] accepts the values that are not blank. *)
Lemma validateRequired_truthy v : truthy (validateRequired v) = true <-> trim v <> [].
Proof.
  unfold validateRequired, and_. destruct v as [| c v].
  - split; [discriminate | intros H; exfalso; apply H; reflexivity].
  - cbn [truthy]. destruct (trim (c :: v)) as [| x l].
    + split; [intros H; discriminate H | intros H; now destruct H].
    + split; [discriminate | reflexivity].
Qed.

(** What the rule lists of the contact form ask of a value: a name or a
    phone number may be left empty, a reason and a message may not. *)
Lemma contact_rules_meaning v :
  (passes requiredEmailRules v = true <-> trim v <> [] /\ validateEmail v = true)
  /\ (passes nameRules v = true <-> v = [] \/ (2 <= length (trim v))%nat)
  /\ (passes phoneRules v = true <-> v = [] \/ validatePhone v = true)
  /\ (passes reasonRules v = true <-> trim v <> [])
  /\ (passes messageRules v = true <-> trim v <> [] /\ (length v <= 2000)%nat).
Proof.
  pose proof (validateRequired_truthy v) as Hreq.
  unfold passes. cbn [forallb validator requiredEmailRules nameRules phoneRules reasonRules
                      messageRules].
  rewrite !andb_true_r.
  split; [| split; [| split; [| split]]].
  - rewrite andb_true_iff, Hreq. reflexivity.
  - destruct v as [| c v].
    + split; [auto | reflexivity].
    + cbn [or_ not_ truthy negb]. rewrite Nat.leb_le.
      split; [auto | intros [H | H]; [discriminate | exact H]].
  - destruct v as [| c v].
    + split; [auto | reflexivity].
    + cbn [or_ not_ truthy negb].
      split; [auto | intros [H | H]; [discriminate | exact H]].
  - exact Hreq.
  - rewrite andb_true_iff, Hreq.
    destruct v as [| c v].
    + split; [intros [H _]; now destruct H | intros [H _]; now destruct H].
    + unfold validateMessageLength, and_, defaultMaxLength. cbn [truthy].
      now rewrite Nat.leb_le.
Qed.

(** C7.  [validateContactForm] returns [true] exactly when each of the
    five fields passes its own rule list.  On a page whose error elements
    hold text only, for each field whose error element exists that
    element ends up showing what the field's own rules report for the
    field's own value: the message of the first rule that rejects it, or
    nothing.  With an empty reason and an empty message both fields are
    rejected and the form with them, the reason reporting its own message
    and the message its own. *)
Theorem validateContactForm_fields_independent :
  (forall fd w,
      fst (validateContactForm fd w)
      = Return (passes requiredEmailRules (email fd) && passes nameRules (name fd)
                && passes phoneRules (phone fd) && passes reasonRules (reason fd)
                && passes messageRules (messageText fd)))
  /\ (forall fd w,
        errorElementsChildless (document w) contactFieldIds = true ->
        forall f v rules,
          In (f, v, rules) (contactFields fd) ->
          errorShown (document w) f <> None ->
          errorShown (document (snd (validateContactForm fd w))) f
          = Some (reported rules v))
  /\ (forall fd,
        reason fd = [] -> messageText fd = [] ->
        passes reasonRules (reason fd) = false
        /\ passes messageRules (messageText fd) = false
        /\ reported reasonRules (reason fd) = "Please select a reason for contact"
        /\ reported messageRules (messageText fd) = "Message is required"
        /\ forall w, fst (validateContactForm fd w) = Return false).
Proof.
  split; [exact FormFacts.validateContactForm_returns |]. split.
  - intros fd w Hleaf f v rules Hin Hshown.
    destruct (FormFacts.validateAll_effect (contactFields fd) w)
      as (d' & Hrun & Hsh & Hhit & _).
    { simpl. repeat constructor; rewrite ?list_elem_of_In; simpl; intuition discriminate. }
    { intros x Hx he. apply (FormFacts.errorElementsChildless_spec _ contactFieldIds).
      - exact Hleaf.
      - simpl in Hx. simpl. intuition (subst; simpl; auto). }
    rewrite FormFacts.validateContactForm_validateAll. unfold bind. rewrite Hrun.
    cbn [ret snd document]. unfold errorShown in *.
    rewrite <- (DomFacts.sameShape_getElementById (document w) d' _ Hsh).
    destruct (Dom.getElementById (document w) (errorId f)) as [he |] eqn:Hhe; [| congruence].
    f_equal. now apply (Hhit f v rules Hin).
  - intros fd Hr Hm. rewrite Hr, Hm. repeat split.
    intros w. rewrite FormFacts.validateContactForm_returns, Hr.
    change (passes reasonRules []) with false. now rewrite andb_false_r.
Qed.

Lemma validateContactForm_fields_independent_witness :
  fst (validateContactForm Examples.emailOnly Examples.page) = Return false
  /\ errorShown (document (snd (validateContactForm Examples.emailOnly Examples.page)))
                "contact-reason" = Some "Please select a reason for contact"
  /\ errorShown (document (snd (validateContactForm Examples.emailOnly Examples.page)))
                "contact-message" = Some "Message is required"
  /\ errorShown (document (snd (validateContactForm Examples.emailOnly Examples.page)))
                "contact-email" = Some "".
Proof.
  destruct validateContactForm_fields_independent as (_ & Hshown & Hempty).
  assert (Hleaf : errorElementsChildless (document Examples.page) contactFieldIds = true)
    by (vm_compute; reflexivity).
  split; [| split; [| split]].
  - apply (Hempty Examples.emailOnly); reflexivity.
  - apply (Hshown Examples.emailOnly Examples.page Hleaf "contact-reason" [] reasonRules).
    + simpl. auto 10.
    + vm_compute. discriminate.
  - apply (Hshown Examples.emailOnly Examples.page Hleaf "contact-message" [] messageRules).
    + simpl. auto 10.
    + vm_compute. discriminate.
  - apply (Hshown Examples.emailOnly Examples.page Hleaf "contact-email"
             (utf16 "user@example.com") requiredEmailRules).
    + simpl. auto 10.
    + vm_compute. discriminate.
Defined.
